(** * CADomatic: the crawl / extract / chunk / index pipeline of [src/rag_builder.py]

    A shallow embedding of the retrieval-corpus builder.  Python [str]
    values are modelled as [string]: a sequence of characters whose code
    points lie in 0..255 (the Latin-1 range); code points above 255 are not
    represented.  Python [set] is [gset string], Python [list] is [list].
    The outside world (HTTP, the HTML parser, [urljoin], the text splitter,
    the embedder and the vector store) enters as Section variables. *)

From Stdlib Require Import Ascii String Lia.
From stdpp Require Import gmap strings list pretty.

Local Open Scope string_scope.
Local Open Scope nat_scope.
Local Open Scope list_scope.
Local Open Scope stdpp_scope.

(** ** Python string primitives used by the source *)

Module PyStr.

(** [c.lower()] on one character (code points 0..255): A-Z and the
    Latin-1 capitals 0xC0..0xDE except the multiplication sign 0xD7. *)
Definition lower_char (c : ascii) : ascii :=
  let n := nat_of_ascii c in
  if (((65 <=? n) && (n <=? 90))
      || ((192 <=? n) && (n <=? 222) && negb (n =? 215)))
  then ascii_of_nat (n + 32)
  else c.

(** [s.lower()] *)
Fixpoint lower (s : string) : string :=
  match s with
  | EmptyString => EmptyString
  | String c s' => String (lower_char c) (lower s')
  end.

(** [s.startswith(p)] *)
Definition startswith (s p : string) : bool := String.prefix p s.

(** [needle in hay] *)
Fixpoint contains (needle hay : string) : bool :=
  String.prefix needle hay ||
  match hay with
  | EmptyString => false
  | String _ hay' => contains needle hay'
  end.

(** [c.isspace()]: the characters removed by [str.strip()]. *)
Definition isspace (c : ascii) : bool :=
  let n := nat_of_ascii c in
  (((9 <=? n) && (n <=? 13)) || ((28 <=? n) && (n <=? 32))
   || (n =? 133) || (n =? 160)).

(** The line boundaries of [str.splitlines()]:
    LF, VT, FF, CR, FS, GS, RS and NEL (CR LF counts as one). *)
Definition is_linebreak (c : ascii) : bool :=
  let n := nat_of_ascii c in
  (((10 <=? n) && (n <=? 13)) || ((28 <=? n) && (n <=? 30)) || (n =? 133)).

Definition LF : ascii := ascii_of_nat 10.
Definition CR : ascii := ascii_of_nat 13.

(** [s.lstrip()], [s.rstrip()], [s.strip()] *)
Fixpoint lstrip (s : string) : string :=
  match s with
  | EmptyString => EmptyString
  | String c s' => if isspace c then lstrip s' else s
  end.

Fixpoint rstrip (s : string) : string :=
  match s with
  | EmptyString => EmptyString
  | String c s' =>
      match rstrip s' with
      | EmptyString => if isspace c then EmptyString else String c EmptyString
      | r => String c r
      end
  end.

Definition strip (s : string) : string := rstrip (lstrip s).

(** [s.splitlines()]: a character that is not a boundary belongs to the
    first line of what follows it; a boundary closes the (so far empty)
    current line; no empty line is produced after a final boundary. *)
Fixpoint splitlines (s : string) : list string :=
  match s with
  | EmptyString => []
  | String c s' =>
      if is_linebreak c then
        EmptyString ::
        match s' with
        | String d s'' =>
            if Ascii.eqb c CR && Ascii.eqb d LF then splitlines s'' else splitlines s'
        | EmptyString => splitlines s'
        end
      else
        match splitlines s' with
        | [] => [String c EmptyString]
        | l :: ls => String c l :: ls
        end
  end.

(** [sep.join(ls)] *)
Fixpoint join (sep : string) (ls : list string) : string :=
  match ls with
  | [] => EmptyString
  | [l] => l
  | l :: ls' => l +:+ sep +:+ join sep ls'
  end.

(** [s[:n]] and [s[n:]] for [n >= 0] *)
Fixpoint take (n : nat) (s : string) : string :=
  match n, s with
  | S n', String c s' => String c (take n' s')
  | _, _ => EmptyString
  end.

Fixpoint drop (n : nat) (s : string) : string :=
  match n, s with
  | S n', String _ s' => drop n' s'
  | _, _ => s
  end.

Definition first_char (s : string) : option ascii :=
  match s with
  | EmptyString => None
  | String c _ => Some c
  end.

Fixpoint last_char (s : string) : option ascii :=
  match s with
  | EmptyString => None
  | String c EmptyString => Some c
  | String _ s' => last_char s'
  end.

(** No character of [s] is a line boundary. *)
Fixpoint no_linebreak (s : string) : bool :=
  match s with
  | EmptyString => true
  | String c s' => negb (is_linebreak c) && no_linebreak s'
  end.

End PyStr.

(** ** The URL filter (lines 17-44) *)

Definition BASE_URL_WIKI : string := "https://wiki.freecad.org/Power_users_hub".
Definition BASE_URL_GITHUB : string := "https://github.com/shaise/FreeCAD_FastenersWB".

Definition DOMAIN_WHITELIST : list string :=
  [ "https://wiki.freecad.org"; "https://github.com/shaise" ].

Definition LANG_IDENTIFIERS : list string :=
  [ "/id"; "/de"; "/tr"; "/es"; "/fr"; "/hr"; "/it"; "/pl";
    "/pt"; "/pt-br"; "/ro"; "/fi"; "/sv"; "/cs"; "/ru"; "/zh-cn";
    "/zh-tw"; "/ja"; "/ko" ].

Definition is_excluded_url (url : string) : bool :=
  let url_lower := PyStr.lower url in
  if PyStr.contains "wiki.freecad.org" url_lower
     && existsb (fun lang => PyStr.contains lang url_lower) LANG_IDENTIFIERS
  then true
  else PyStr.contains ".jpg" url_lower
       || PyStr.contains ".png" url_lower
       || PyStr.contains "edit&section" url_lower.

(** The three asset / edit-action markers of the final [return]. *)
Definition has_asset_marker (url : string) : bool :=
  let url_lower := PyStr.lower url in
  PyStr.contains ".jpg" url_lower
  || PyStr.contains ".png" url_lower
  || PyStr.contains "edit&section" url_lower.

(** The URL contains one of the configured language markers. *)
Definition has_lang_marker (url : string) : bool :=
  existsb (fun lang => PyStr.contains lang url) LANG_IDENTIFIERS.

(** ** The crawler (lines 46-78) *)

(** The outcome of a call that may raise a Python [Exception]: the value,
    or the exception's message. *)
Inductive result (A : Type) : Type :=
| Ok (a : A)
| Raise (e : string).
Arguments Ok {A} a.
Arguments Raise {A} e.

(** What the loop body reads from a parsed page: [get_text] is
    [soup.get_text(separator="\n")] once the script, style, header, footer,
    nav and aside subtrees are removed (lines 62-64); [hrefs] lists
    [a["href"]] for [a] in [soup.find_all("a", href=True)], in document
    order (line 69). *)
Record soup : Type := { get_text : string; hrefs : list string }.

(** A Page Record, the dict [{"url": url, "text": clean}]. *)
Record page : Type := { url : string; text : string }.

(** The local variables of [crawl_wiki], with the standard output and the
    list of URLs passed to [requests.get], both in chronological order. *)
Record state : Type := {
  visited : gset string;
  to_visit : list string;
  pages : list page;
  stdout : list string;
  gets : list string
}.

Definition newline : string := String PyStr.LF EmptyString.

(** Line 65: ["\n".join([line.strip() for line in text.splitlines() if line.strip()])] *)
Definition nonblank (line : string) : bool :=
  match PyStr.strip line with
  | EmptyString => false
  | String _ _ => true
  end.

Definition clean_text (text : string) : string :=
  PyStr.join newline (map PyStr.strip (List.filter nonblank (PyStr.splitlines text))).

Definition init (start_url : string) : state :=
  {| visited := ∅; to_visit := [start_url]; pages := []; stdout := []; gets := [] |}.

Definition print (line : string) (s : state) : state :=
  {| visited := visited s; to_visit := to_visit s; pages := pages s;
     stdout := stdout s ++ [line]; gets := gets s |}.

Definition pop (rest : list string) (s : state) : state :=
  {| visited := visited s; to_visit := rest; pages := pages s;
     stdout := stdout s; gets := gets s |}.

Definition enqueue (full : string) (s : state) : state :=
  {| visited := visited s; to_visit := to_visit s ++ [full]; pages := pages s;
     stdout := stdout s; gets := gets s |}.

Definition record_get (url : string) (s : state) : state :=
  {| visited := visited s; to_visit := to_visit s; pages := pages s;
     stdout := stdout s; gets := gets s ++ [url] |}.

Definition mark_visited (url : string) (s : state) : state :=
  {| visited := {[ url ]} ∪ visited s; to_visit := to_visit s; pages := pages s;
     stdout := stdout s; gets := gets s |}.

Definition append_page (p : page) (s : state) : state :=
  {| visited := visited s; to_visit := to_visit s; pages := pages s ++ [p];
     stdout := stdout s; gets := gets s |}.

(** Line 75, the handler of the [try]. *)
Definition log_error (url e : string) (s : state) : state :=
  print ("Error fetching " +:+ url +:+ ": " +:+ e) s.

Section Crawler.

(** Lines 57-59 as one call: the [n]-th HTTP GET of the run (counting from
    0), [raise_for_status] and the HTML parse.  [Raise] stands for any
    exception of these three lines. *)
Variable requests_get : nat → string → result soup.

(** [urllib.parse.urljoin]; it raises [ValueError] on some malformed
    references. *)
Variable urljoin : string → string → result string.

(** Lines 69-73.  An exception of [urljoin] leaves the [for] loop and is
    caught by the handler of line 74. *)
Fixpoint queue_links (url : string) (hs : list string) (s : state) : state :=
  match hs with
  | [] => s
  | href :: hs' =>
      match urljoin url href with
      | Raise e => log_error url e s
      | Ok full =>
          if existsb (PyStr.startswith full) DOMAIN_WHITELIST then
            if negb (bool_decide (full ∈ visited s)) && negb (is_excluded_url full)
            then queue_links url hs' (enqueue full s)
            else queue_links url hs' s
          else queue_links url hs' s
      end
  end.

(** One pass through the body of the [while] loop (lines 52-75). *)
Definition iteration (s : state) : state :=
  match to_visit s with
  | [] => s
  | url :: rest =>
      let s := pop rest s in
      if bool_decide (url ∈ visited s) || is_excluded_url url then s
      else
        let s := print ("Fetching: " +:+ url) s in
        let n := length (gets s) in
        let s := record_get url s in
        match requests_get n url with
        | Raise e => log_error url e s
        | Ok sp =>
            let s := mark_visited url s in
            let clean := clean_text (get_text sp) in
            let s := append_page {| url := url; text := clean |} s in
            queue_links url (hrefs sp) s
        end
  end.

(** The three ways through the loop body: the URL is discarded, its fetch
    raises, or its page is recorded and its links are queued. *)
Inductive pass (s : state) : state → Prop :=
| pass_skip u rest :
    to_visit s = u :: rest →
    u ∈ visited s ∨ is_excluded_url u = true →
    pass s (pop rest s)
| pass_error u rest e :
    to_visit s = u :: rest →
    u ∉ visited s → is_excluded_url u = false →
    requests_get (length (gets s)) u = Raise e →
    pass s (log_error u e (record_get u (print ("Fetching: " +:+ u) (pop rest s))))
| pass_page u rest sp :
    to_visit s = u :: rest →
    u ∉ visited s → is_excluded_url u = false →
    requests_get (length (gets s)) u = Ok sp →
    pass s (queue_links u (hrefs sp)
              (append_page {| url := u; text := clean_text (get_text sp) |}
                 (mark_visited u (record_get u (print ("Fetching: " +:+ u) (pop rest s)))))).

(** The loop condition of line 51: [to_visit and len(visited) < max_pages]. *)
Definition loop_cond (max_pages : nat) (s : state) : bool :=
  match to_visit s with
  | [] => false
  | _ :: _ => size (visited s) <? max_pages
  end.

(** The state after at most [k] passes of the loop: it stays put once the
    loop condition fails. *)
Fixpoint run (max_pages : nat) (k : nat) (s : state) : state :=
  match k with
  | 0 => s
  | S k' => if loop_cond max_pages s then run max_pages k' (iteration s) else s
  end.

(** [crawl_wiki(start_url, max_pages)] with [fuel] bounding the number of
    passes; [None] when the fuel does not reach the end of the loop. *)
Definition crawl_wiki (fuel : nat) (start_url : string) (max_pages : nat) : option state :=
  let s := run max_pages fuel (init start_url) in
  if loop_cond max_pages s then None
  else Some (print ("Crawled " +:+ pretty (length (pages s)) +:+ " pages from " +:+ start_url) s).

(** Every successful fetch so far marked its URL visited, and a URL is
    fetched again only if every earlier fetch of it failed. *)
Definition gets_inv (s : state) : Prop :=
  (∀ i u sp, gets s !! i = Some u → requests_get i u = Ok sp → u ∈ visited s)
  ∧ (∀ i j u, i < j → gets s !! i = Some u → gets s !! j = Some u →
              ∃ e, requests_get i u = Raise e).

End Crawler.

(** The page list never repeats a URL, and every URL in it is visited. *)
Definition pages_inv (s : state) : Prop :=
  NoDup (url <$> pages s) ∧ ∀ p, p ∈ pages s → url p ∈ visited s.

(** ** The chunker *)

(** A langchain [Document]: the chunk text and its [{"source": url}] metadata. *)
Record document : Type := { page_content : string; source : string }.

(** Modelled from the spec: the Chunker of section 4.5.  The source
    delegates the splitting to the external call
    [RecursiveCharacterTextSplitter(chunk_size=1000, chunk_overlap=150)
    .create_documents] (lines 93-94), whose implementation is not in this
    repository.  Following the spec's words, the text is walked in slices
    of [chunk_size] characters, the window advancing by
    [chunk_size - overlap], until the remaining text is shorter than one
    window; that remainder is the final chunk.  [fuel] bounds the number of
    windows. *)
Fixpoint chunk_from (fuel chunk_size overlap : nat) (t : string) : list string :=
  match fuel with
  | 0 => [t]
  | S fuel' =>
      if chunk_size <=? String.length t
      then PyStr.take chunk_size t
           :: chunk_from fuel' chunk_size overlap (PyStr.drop (chunk_size - overlap) t)
      else [t]
  end.

(** Modelled from the spec: the chunks of one page text; one window per
    character is always enough fuel when [overlap < chunk_size]. *)
Definition chunk_text (chunk_size overlap : nat) (t : string) : list string :=
  chunk_from (S (String.length t)) chunk_size overlap t.

(** Modelled from the spec: [chunk(pages, chunk_size, overlap)] of section
    4.5, each page chunked on its own and every chunk tagged with the url of
    its page. *)
Definition chunk (ps : list page) (chunk_size overlap : nat) : list document :=
  flat_map (fun p => map (fun c => {| page_content := c; source := url p |})
                         (chunk_text chunk_size overlap (text p))) ps.

(** Re-assembly: the first chunk, then every later chunk without its first
    [overlap] characters. *)
Definition reassemble (overlap : nat) (chunks : list string) : string :=
  match chunks with
  | [] => EmptyString
  | c :: cs => c +:+ fold_right String.append EmptyString (map (PyStr.drop overlap) cs)
  end.

(** ["a" * n] *)
Fixpoint str_repeat (c : ascii) (n : nat) : string :=
  match n with
  | 0 => EmptyString
  | S n' => String c (str_repeat c n')
  end.

(** ** The orchestrator (lines 81-107) *)

(** What [build_vectorstore] does to the outside, in order. *)
Inductive effect : Type :=
| PrintLine (line : string)
| CreateDocuments (texts metadatas : list string)
| Embeddings (model : string)
| FromDocuments (docs : list document)
| Makedirs (path : string)
| SaveLocal (path : string).

Definition is_print (e : effect) : bool :=
  match e with
  | PrintLine _ => true
  | _ => false
  end.

Section Orchestrator.

Variable requests_get : nat → string → result soup.
Variable urljoin : string → string → result string.

(** [splitter.create_documents(texts, metadatas=metadatas)], external. *)
Variable create_documents : list string → list string → list document.

(** The directory computed from [__file__] on lines 101-103. *)
Variable vectorstore_path : string.

(** Lines 86-107, from the page list on. *)
Definition index_pages (ps : list page) : list effect :=
  match ps with
  | [] => [PrintLine "No pages crawled. Exiting."]
  | _ :: _ =>
      let texts := map text ps in
      let metadatas := map url ps in
      let docs := create_documents texts metadatas in
      [ CreateDocuments texts metadatas;
        PrintLine ("Split into " +:+ pretty (length docs) +:+ " chunks");
        Embeddings "models/embedding-001";
        FromDocuments docs;
        Makedirs vectorstore_path;
        SaveLocal vectorstore_path;
        PrintLine "Vectorstore saved to ./vectorstore" ]
  end.

(** Lines 82-84: the two crawls in sequence (the second one sees the HTTP
    calls that follow those of the first); the output of both and the
    concatenated page list. *)
Definition crawl_roots (fuel : nat) : option (list string * list page) :=
  match crawl_wiki requests_get urljoin fuel BASE_URL_WIKI 2000 with
  | None => None
  | Some w =>
      let later := fun n => requests_get (length (gets w) + n) in
      match crawl_wiki later urljoin fuel BASE_URL_GITHUB 450 with
      | None => None
      | Some g => Some (stdout w ++ stdout g, pages w ++ pages g)
      end
  end.

(** [build_vectorstore()] *)
Definition build_vectorstore (fuel : nat) : option (list effect) :=
  match crawl_roots fuel with
  | None => None
  | Some (out, ps) => Some (map PrintLine out ++ index_pages ps)
  end.

End Orchestrator.

(** ** Sample worlds *)

(** A resolver for absolute-path references on the wiki host. *)
Definition wiki_urljoin (base href : string) : result string :=
  Ok ("https://wiki.freecad.org" +:+ href).

Definition start_page : string := "https://wiki.freecad.org/Start".
Definition missing_page : string := "https://wiki.freecad.org/B".

(** The start page links twice to a page that always answers 404. *)
Definition world_dup_fail (n : nat) (u : string) : result soup :=
  if String.eqb u start_page
  then Ok {| get_text := "Start"; hrefs := ["/B"; "/B"] |}
  else Raise "404 Client Error".

(** Every request fails. *)
Definition world_down (n : nat) (u : string) : result soup :=
  Raise "Connection refused".

(** The start page links to a page whose reference cannot be resolved. *)
Definition world_bad_href (n : nat) (u : string) : result soup :=
  Ok {| get_text := "Start"; hrefs := ["//["] |}.

Definition strict_urljoin (base href : string) : result string :=
  if String.eqb href "//[" then Raise "Invalid IPv6 URL"
  else Ok ("https://wiki.freecad.org" +:+ href).

(** What both crawls print when every request fails. *)
Definition down_output : list string :=
  [ "Fetching: https://wiki.freecad.org/Power_users_hub";
    "Error fetching https://wiki.freecad.org/Power_users_hub: Connection refused";
    "Crawled 0 pages from https://wiki.freecad.org/Power_users_hub";
    "Fetching: https://github.com/shaise/FreeCAD_FastenersWB";
    "Error fetching https://github.com/shaise/FreeCAD_FastenersWB: Connection refused";
    "Crawled 0 pages from https://github.com/shaise/FreeCAD_FastenersWB" ].

(** The claim "a URL that is twice in the pending queue is fetched at most
    once", as a property of one crawl. *)
Definition fetched_at_most_once
    (requests_get : nat → string → result soup)
    (urljoin : string → string → result string)
    (start_url : string) (max_pages : nat) : Prop :=
  ∀ k fuel s u,
    2 ≤ length (List.filter (String.eqb u)
                  (to_visit (run requests_get urljoin max_pages k (init start_url)))) →
    crawl_wiki requests_get urljoin fuel start_url max_pages = Some s →
    length (List.filter (String.eqb u) (gets s)) ≤ 1.

(** The claim "2400 characters give chunks of 1000, 1000 and 550". *)
Definition chunks_1000_1000_550 (t : string) : Prop :=
  map String.length (chunk_text 1000 150 t) = [1000; 1000; 550].

(** Unfold one link of [queue_links] and close every branch with the
    induction hypothesis. *)
Ltac queue_links_field IH :=
  simpl; repeat case_match; rewrite ?IH; done.

(** ** Further definitions *)

(** The test of line 71: the URL starts with a whitelisted prefix. *)
Definition whitelisted (full : string) : bool :=
  existsb (PyStr.startswith full) DOMAIN_WHITELIST.

(** The markers of the final [return] of [is_excluded_url] (lines 41-43). *)
Definition ASSET_MARKERS : list string := [ ".jpg"; ".png"; "edit&section" ].

(** The URLs of [gs] whose fetch succeeded, [gs] being the URLs of the
    HTTP calls number [n], [n+1], ... in order. *)
Fixpoint ok_gets (requests_get : nat → string → result soup)
    (n : nat) (gs : list string) : list string :=
  match gs with
  | [] => []
  | u :: gs' =>
      match requests_get n u with
      | Ok _ => u :: ok_gets requests_get (S n) gs'
      | Raise _ => ok_gets requests_get (S n) gs'
      end
  end.

(** Every page answers with the same text and no links. *)
Definition world_leaf (n : nat) (u : string) : result soup :=
  Ok {| get_text := "Hello"; hrefs := [] |}.

(** A URL the crawl of [start_url] may hold in its queue: the start URL
    or a whitelisted one. *)
Definition allowed (start_url u : string) : Prop :=
  u = start_url ∨ whitelisted u = true.

(** A URL the crawl of [start_url] may fetch: allowed and not excluded. *)
Definition fetchable (start_url u : string) : Prop :=
  is_excluded_url u = false ∧ allowed start_url u.

(** The page list and the visited set go together. *)
Definition count_inv (s : state) : Prop :=
  length (pages s) = size (visited s)
  ∧ visited s = list_to_set (url <$> pages s).

(** What both crawls print when every page answers without links. *)
Definition leaf_output : list string :=
  [ "Fetching: https://wiki.freecad.org/Power_users_hub";
    "Crawled 1 pages from https://wiki.freecad.org/Power_users_hub";
    "Fetching: https://github.com/shaise/FreeCAD_FastenersWB";
    "Crawled 1 pages from https://github.com/shaise/FreeCAD_FastenersWB" ].

(** Every character of [s] is whitespace. *)
Fixpoint all_space (s : string) : bool :=
  match s with
  | EmptyString => true
  | String c s' => PyStr.isspace c && all_space s'
  end.

(** ** [src/main.py]: cleaning the generated code (lines 40-44) *)

Module PyStrip.

(** [c in chars] for one character *)
Definition in_chars (chars : string) (c : ascii) : bool :=
  existsb (Ascii.eqb c) (list_ascii_of_string chars).

(** [s.lstrip(chars)], [s.rstrip(chars)], [s.strip(chars)] *)
Fixpoint lstrip_chars (chars s : string) : string :=
  match s with
  | EmptyString => EmptyString
  | String c s' => if in_chars chars c then lstrip_chars chars s' else s
  end.

Fixpoint rstrip_chars (chars s : string) : string :=
  match s with
  | EmptyString => EmptyString
  | String c s' =>
      match rstrip_chars chars s' with
      | EmptyString => if in_chars chars c then EmptyString else String c EmptyString
      | r => String c r
      end
  end.

Definition strip_chars (chars s : string) : string :=
  rstrip_chars chars (lstrip_chars chars s).

End PyStrip.

(** The argument of [strip] on line 42: backtick, newline, space. *)
Definition FENCE_CHARS : string :=
  String "`" (String PyStr.LF (String " " EmptyString)).

(** Step 4 of [main] (lines 41-44), from the answer of the model to the
    code that is written to the script. *)
Definition clean_generated_code (generated_code : string) : string :=
  if PyStr.startswith generated_code "```" then
    let generated_code := PyStrip.strip_chars FENCE_CHARS generated_code in
    if PyStr.startswith (PyStr.lower generated_code) "python"
    then PyStr.lstrip (PyStr.drop (String.length "python") generated_code)
    else generated_code
  else generated_code.

(** ** Further definitions for the link loop and the two roots *)

(** The references of a page as [urljoin] resolves them, up to the first
    one it rejects. *)
Fixpoint resolved_prefix (urljoin : string → string → result string)
    (u : string) (hs : list string) : list string :=
  match hs with
  | [] => []
  | h :: hs' =>
      match urljoin u h with
      | Ok full => full :: resolved_prefix urljoin u hs'
      | Raise _ => []
      end
  end.

(** The tests of lines 71-72 on a resolved link. *)
Definition queueable (vis : gset string) (full : string) : bool :=
  whitelisted full && (negb (bool_decide (full ∈ vis)) && negb (is_excluded_url full)).

(** A resolver for absolute references. *)
Definition abs_urljoin (base href : string) : result string := Ok href.

(** The wiki start page links to the start page of the code-hosting root. *)
Definition world_cross (n : nat) (u : string) : result soup :=
  if String.eqb u BASE_URL_WIKI
  then Ok {| get_text := "Wiki"; hrefs := [BASE_URL_GITHUB] |}
  else Ok {| get_text := "Repo"; hrefs := [] |}.

(** ** The URL filter *)

Module FilterFacts.
Import PyStr.

Lemma prefix_lower p s :
  String.prefix p s = true → String.prefix (lower p) (lower s) = true.
Proof.
  revert p. induction s as [|b s IH]; intros [|a p]; try done.
  simpl. destruct (ascii_dec a b) as [->|]; [|done].
  intros Hp. destruct (ascii_dec (lower_char b) (lower_char b)); [auto|done].
Qed.

Lemma contains_lower n h :
  contains n h = true → contains (lower n) (lower h) = true.
Proof.
  induction h as [|b h IH]; simpl.
  - rewrite !orb_false_r. apply (prefix_lower n EmptyString).
  - intros [Hp|Hc]%orb_prop; apply orb_true_intro.
    + left. apply (prefix_lower n (String b h) Hp).
    + right. auto.
Qed.

Lemma prefix_split p s : String.prefix p s = true → ∃ r, s = p +:+ r.
Proof.
  revert p. induction s as [|b s IH]; intros [|a p]; try done.
  - by exists EmptyString.
  - by exists (String b s).
  - simpl. destruct (ascii_dec a b) as [->|]; [|done].
    intros (r & ->)%IH. by exists r.
Qed.

Lemma lower_append a b : lower (a +:+ b) = lower a +:+ lower b.
Proof.
  induction a as [|c a IH]; [done|].
  change (String (lower_char c) (lower (a +:+ b))
          = String (lower_char c) (lower a +:+ lower b)).
  by rewrite IH.
Qed.

Lemma prefix_append_r n a r :
  String.prefix n a = true → String.prefix n (a +:+ r) = true.
Proof.
  revert n. induction a as [|b a IH]; intros [|c n]; try done.
  - intros _. by destruct r.
  - simpl. destruct (ascii_dec c b); [apply IH|done].
Qed.

Lemma contains_append_r n a r :
  contains n a = true → contains n (a +:+ r) = true.
Proof.
  induction a as [|b a IH].
  - simpl. rewrite orb_false_r. intros Hp.
    destruct n; [|done]. by destruct r.
  - change (String b a +:+ r) with (String b (a +:+ r)).
    change (contains n (String b a))
      with (String.prefix n (String b a) || contains n a).
    change (contains n (String b (a +:+ r)))
      with (String.prefix n (String b (a +:+ r)) || contains n (a +:+ r)).
    intros [Hp|Hc]%orb_prop; apply orb_true_intro.
    + left. by apply (prefix_append_r n (String b a) r).
    + right. auto.
Qed.

Lemma lang_identifiers_lower :
  Forall (λ m, lower m = m) LANG_IDENTIFIERS.
Proof. repeat constructor. Qed.

(** A marker found in the URL as written is found in its lower-case form. *)
Lemma has_lang_marker_lower u :
  has_lang_marker u = true → has_lang_marker (lower u) = true.
Proof.
  unfold has_lang_marker. rewrite !existsb_exists.
  intros (m & Hm & Hc). exists m. split; [done|].
  pose proof lang_identifiers_lower as Hlow. rewrite Forall_forall in Hlow.
  rewrite <- (Hlow m) by by apply list_elem_of_In.
  by apply contains_lower.
Qed.

End FilterFacts.

(** The wiki half of the filter: a URL under the wiki prefix that contains a
    language marker is excluded. *)
Lemma is_excluded_url_wiki_lang u :
  PyStr.startswith u "https://wiki.freecad.org" = true →
  has_lang_marker u = true →
  is_excluded_url u = true.
Proof.
  intros (r & ->)%FilterFacts.prefix_split Hm%FilterFacts.has_lang_marker_lower.
  unfold is_excluded_url. unfold has_lang_marker in Hm. rewrite Hm.
  rewrite FilterFacts.lower_append.
  by rewrite FilterFacts.contains_append_r.
Qed.

(** Without the text [wiki.freecad.org] in it, a URL is excluded only by
    the asset and edit-action markers. *)
Lemma is_excluded_url_other_domain u :
  PyStr.contains "wiki.freecad.org" (PyStr.lower u) = false →
  is_excluded_url u = has_asset_marker u.
Proof. unfold is_excluded_url, has_asset_marker. by intros ->. Qed.

(** C3, where the code departs from it: this URL is under the whitelisted
    prefix of the code-hosting domain, contains the language marker [/de]
    and none of the asset or edit-action markers, and is excluded all the
    same, because the guard of line 36 looks for the text
    [wiki.freecad.org] anywhere in the URL. *)
Theorem is_excluded_url_github_mentions_wiki :
  PyStr.startswith
    "https://github.com/shaise/FreeCAD_FastenersWB/search?q=wiki.freecad.org/de"
    "https://github.com/shaise" = true
  ∧ has_lang_marker
      "https://github.com/shaise/FreeCAD_FastenersWB/search?q=wiki.freecad.org/de" = true
  ∧ has_asset_marker
      "https://github.com/shaise/FreeCAD_FastenersWB/search?q=wiki.freecad.org/de" = false
  ∧ is_excluded_url
      "https://github.com/shaise/FreeCAD_FastenersWB/search?q=wiki.freecad.org/de" = true.
Proof. repeat split; vm_compute; reflexivity. Qed.

Example is_excluded_url_wiki_de :
  is_excluded_url "https://wiki.freecad.org/Power_users_hub/de" = true.
Proof. vm_compute. reflexivity. Qed.

Example is_excluded_url_github_de :
  is_excluded_url "https://github.com/shaise/FreeCAD_FastenersWB/tree/master/de" = false.
Proof. vm_compute. reflexivity. Qed.

Example is_excluded_url_png :
  is_excluded_url "https://github.com/shaise/FreeCAD_FastenersWB/Icon.PNG" = true.
Proof. vm_compute. reflexivity. Qed.

Example splitlines_crlf :
  PyStr.splitlines (String "a" (String PyStr.CR (String PyStr.LF (String PyStr.LF "b c"))))
  = ["a"; ""; "b c"].
Proof. vm_compute. reflexivity. Qed.

Example clean_text_sample :
  clean_text ("  Title " +:+ newline +:+ newline +:+ "   " +:+ newline +:+ " body text")
  = "Title" +:+ newline +:+ "body text".
Proof. vm_compute. reflexivity. Qed.

(** * Theorems *)

(** ** Strings *)

Module PyStrFacts.
Import PyStr.

Lemma lstrip_first s c : first_char (lstrip s) = Some c → isspace c = false.
Proof.
  induction s as [|a s IH]; simpl; [discriminate|].
  destruct (isspace a) eqn:Ha; [exact IH|].
  simpl. intros [= <-]. exact Ha.
Qed.

Lemma rstrip_first s c : first_char (rstrip s) = Some c → first_char s = Some c.
Proof.
  destruct s as [|a s]; simpl; [discriminate|].
  destruct (rstrip s); [destruct (isspace a)|]; simpl; congruence.
Qed.

Lemma rstrip_last s c : last_char (rstrip s) = Some c → isspace c = false.
Proof.
  induction s as [|a s IH]; simpl; [discriminate|].
  destruct (rstrip s) as [|b r] eqn:Hr.
  - destruct (isspace a) eqn:Ha; simpl; [discriminate|]. intros [= <-]. exact Ha.
  - exact IH.
Qed.

Lemma lstrip_no_linebreak s : no_linebreak s = true → no_linebreak (lstrip s) = true.
Proof.
  induction s as [|a s IH]; simpl; [done|].
  intros [Ha Hs]%andb_prop. destruct (isspace a); [auto|].
  simpl. by rewrite Ha, Hs.
Qed.

Lemma rstrip_no_linebreak s : no_linebreak s = true → no_linebreak (rstrip s) = true.
Proof.
  induction s as [|a s IH]; simpl; [done|].
  intros [Ha Hs]%andb_prop. specialize (IH Hs).
  destruct (rstrip s) as [|b r].
  - destruct (isspace a); simpl; [done|]. by rewrite Ha.
  - change (no_linebreak (String a (String b r))) with
      (negb (is_linebreak a) && no_linebreak (String b r)).
    by rewrite Ha, IH.
Qed.

Lemma strip_no_linebreak s : no_linebreak s = true → no_linebreak (strip s) = true.
Proof. intros H. by apply rstrip_no_linebreak, lstrip_no_linebreak. Qed.

Lemma strip_first s c : first_char (strip s) = Some c → isspace c = false.
Proof. intros H%rstrip_first. by eapply lstrip_first. Qed.

Lemma strip_last s c : last_char (strip s) = Some c → isspace c = false.
Proof. apply rstrip_last. Qed.

(** Every line of [splitlines] is free of line boundaries. *)
Lemma splitlines_no_linebreak_len n s :
  String.length s ≤ n → Forall (λ l, no_linebreak l = true) (splitlines s).
Proof.
  revert s. induction n as [|n IH]; intros [|c s] Hlen; simpl in *; try (constructor || lia).
  destruct (is_linebreak c) eqn:Hc.
  - constructor; [done|].
    destruct s as [|d s']; [constructor|].
    destruct (Ascii.eqb c CR && Ascii.eqb d LF); apply IH; simpl in *; lia.
  - assert (Hs : Forall (λ l, no_linebreak l = true) (splitlines s)) by (apply IH; lia).
    destruct (splitlines s) as [|l ls].
    + constructor; [|constructor]. simpl. by rewrite Hc.
    + inversion Hs; subst. constructor; [|done]. simpl. by rewrite Hc.
Qed.

Lemma splitlines_no_linebreak s l : l ∈ splitlines s → no_linebreak l = true.
Proof.
  intros Hl. pose proof (splitlines_no_linebreak_len (String.length s) s (le_n _)) as H.
  rewrite Forall_forall in H. by apply H.
Qed.

Lemma splitlines_line_newline l rest :
  no_linebreak l = true →
  splitlines (l +:+ newline +:+ rest) = l :: splitlines rest.
Proof.
  induction l as [|a l IH]; simpl.
  - intros _. by destruct rest.
  - intros [Ha Hl]%andb_prop. apply negb_true_iff in Ha. rewrite Ha.
    by rewrite (IH Hl).
Qed.

Lemma splitlines_single l :
  no_linebreak l = true → l ≠ EmptyString → splitlines l = [l].
Proof.
  induction l as [|a l IH]; simpl; [done|].
  intros [Ha Hl]%andb_prop _. apply negb_true_iff in Ha. rewrite Ha.
  destruct l as [|b l]; [done|]. by rewrite IH.
Qed.

(** Joining lines with a newline and splitting again is the identity on
    non-empty lines without line boundaries. *)
Lemma splitlines_join ls :
  Forall (λ l, no_linebreak l = true ∧ l ≠ EmptyString) ls →
  splitlines (join newline ls) = ls.
Proof.
  induction 1 as [|l ls [Hl Hne] Hls IH]; [done|].
  destruct ls as [|l' ls].
  - simpl. by apply splitlines_single.
  - change (join newline (l :: l' :: ls)) with (l +:+ newline +:+ join newline (l' :: ls)).
    by rewrite splitlines_line_newline, IH.
Qed.

End PyStrFacts.

(** ** The content extractor *)

Lemma nonblank_strip_nonempty line : nonblank line = true → PyStr.strip line ≠ EmptyString.
Proof. unfold nonblank. by destruct (PyStr.strip line). Qed.

(** The lines kept by line 65, before joining. *)
Lemma kept_lines_wellformed text :
  Forall (λ l, PyStr.no_linebreak l = true ∧ l ≠ EmptyString)
         (map PyStr.strip (List.filter nonblank (PyStr.splitlines text))).
Proof.
  rewrite Forall_forall. intros l Hl.
  apply list_elem_of_In, in_map_iff in Hl as (line & <- & Hin).
  apply filter_In in Hin as [Hin Hnb]. split.
  - apply PyStrFacts.strip_no_linebreak.
    eapply PyStrFacts.splitlines_no_linebreak, list_elem_of_In, Hin.
  - by apply nonblank_strip_nonempty.
Qed.

(** C7: for every text handed over by the HTML parser, the lines of the
    clean text of a Page Record are exactly the stripped non-blank lines of
    that text, in their original order; none of them is empty, and none
    starts or ends with a whitespace character. *)
Theorem clean_text_lines (text : string) :
  PyStr.splitlines (clean_text text)
    = map PyStr.strip (List.filter nonblank (PyStr.splitlines text))
  ∧ ∀ l, l ∈ PyStr.splitlines (clean_text text) →
      l ≠ EmptyString
      ∧ (∀ c, PyStr.first_char l = Some c → PyStr.isspace c = false)
      ∧ (∀ c, PyStr.last_char l = Some c → PyStr.isspace c = false).
Proof.
  assert (Hsplit : PyStr.splitlines (clean_text text)
    = map PyStr.strip (List.filter nonblank (PyStr.splitlines text))).
  { unfold clean_text. apply PyStrFacts.splitlines_join, kept_lines_wellformed. }
  split; [exact Hsplit|].
  intros l. rewrite Hsplit. intros Hl.
  apply list_elem_of_In, in_map_iff in Hl as (line & <- & Hin).
  apply filter_In in Hin as [_ Hnb].
  split; [by apply nonblank_strip_nonempty|].
  split; intros c; [apply PyStrFacts.strip_first | apply PyStrFacts.strip_last].
Qed.

(** ** The chunker *)

Module ChunkFacts.
Import PyStr.

Lemma append_cons c s t : String c s +:+ t = String c (s +:+ t).
Proof. reflexivity. Qed.

Lemma append_nil_r s : s +:+ EmptyString = s.
Proof. induction s as [|c s IH]; [done|]. by rewrite append_cons, IH. Qed.

Lemma take_drop n s : take n s +:+ drop n s = s.
Proof.
  revert s. induction n as [|n IH]; intros [|c s]; try done.
  simpl. by rewrite append_cons, IH.
Qed.

Lemma length_take n s : String.length (take n s) = Nat.min n (String.length s).
Proof.
  revert s. induction n as [|n IH]; intros [|c s]; simpl; try done.
  by rewrite IH.
Qed.

Lemma length_drop n s : String.length (drop n s) = String.length s - n.
Proof.
  revert s. induction n as [|n IH]; intros [|c s]; simpl; try done.
Qed.

Lemma take_all n s : String.length s ≤ n → take n s = s.
Proof.
  revert s. induction n as [|n IH]; intros [|c s]; simpl; try done; try lia.
  intros H. rewrite IH; [done|lia].
Qed.

Lemma drop_drop a b s : drop a (drop b s) = drop (b + a) s.
Proof.
  revert s. induction b as [|b IH]; intros s; simpl; [done|].
  destruct s as [|c s]; [by destruct a|]. apply IH.
Qed.

Lemma drop_append a s1 s2 :
  a ≤ String.length s1 → drop a (s1 +:+ s2) = drop a s1 +:+ s2.
Proof.
  revert s1. induction a as [|a IH]; intros s1; [done|].
  destruct s1 as [|c s1]; simpl; [lia|]. intros H. apply IH. lia.
Qed.

(** Dropping the overlap from a slice and appending what follows the
    slice gives what follows the overlap. *)
Lemma drop_take_drop o c s :
  o ≤ c → c ≤ String.length s → drop o (take c s) +:+ drop c s = drop o s.
Proof.
  intros Hoc Hcs. rewrite <- drop_append.
  - by rewrite take_drop.
  - rewrite length_take. lia.
Qed.

Lemma chunk_from_unfold fuel c o t :
  chunk_from (S fuel) c o t =
  if c <=? String.length t then take c t :: chunk_from fuel c o (drop (c - o) t) else [t].
Proof. reflexivity. Qed.

(** The chunks after the first, with their overlap removed, give the text
    after the first overlap. *)
Lemma tail_reassembly fuel c o t :
  o < c → String.length t < fuel → o ≤ String.length t →
  fold_right String.append EmptyString (map (drop o) (chunk_from fuel c o t)) = drop o t.
Proof.
  intros Hoc. revert t. induction fuel as [|fuel IH]; intros t Hfuel Hot; [lia|].
  rewrite chunk_from_unfold. destruct (Nat.leb_spec c (String.length t)) as [Hc|Hc].
  - simpl. rewrite IH.
    + rewrite drop_drop. replace (c - o + o) with c by lia.
      apply drop_take_drop; lia.
    + rewrite length_drop. lia.
    + rewrite length_drop. lia.
  - simpl. apply append_nil_r.
Qed.

Lemma reassemble_chunk_from fuel c o t :
  o < c → String.length t < fuel → reassemble o (chunk_from fuel c o t) = t.
Proof.
  intros Hoc Hfuel. destruct fuel as [|fuel]; [lia|].
  rewrite chunk_from_unfold. destruct (Nat.leb_spec c (String.length t)) as [Hc|Hc].
  - unfold reassemble. rewrite tail_reassembly.
    + rewrite drop_drop. replace (c - o + o) with c by lia. apply take_drop.
    + done.
    + rewrite length_drop. lia.
    + rewrite length_drop. lia.
  - simpl. apply append_nil_r.
Qed.

(** The [i]-th chunk is the window of [c] characters that starts at
    [i * (c - o)]. *)
Lemma chunk_from_lookup fuel c o t i x :
  o < c → String.length t < fuel →
  chunk_from fuel c o t !! i = Some x → x = take c (drop (i * (c - o)) t).
Proof.
  intros Hoc. revert t i. induction fuel as [|fuel IH]; intros t i Hfuel; [lia|].
  rewrite chunk_from_unfold. destruct (Nat.leb_spec c (String.length t)) as [Hc|Hc].
  - destruct i as [|i]; simpl.
    + by intros [= <-].
    + intros Hx. apply IH in Hx; [|rewrite length_drop; lia].
      by rewrite drop_drop in Hx.
  - destruct i as [|i]; simpl; [|done].
    intros [= <-]. symmetry. apply take_all. lia.
Qed.

(** Every chunk but the last has exactly [c] characters. *)
Lemma chunk_from_full fuel c o t i x :
  o < c → String.length t < fuel →
  chunk_from fuel c o t !! i = Some x → S i < length (chunk_from fuel c o t) →
  String.length x = c.
Proof.
  intros Hoc. revert t i. induction fuel as [|fuel IH]; intros t i Hfuel; [lia|].
  rewrite chunk_from_unfold. destruct (Nat.leb_spec c (String.length t)) as [Hc|Hc].
  - destruct i as [|i]; simpl.
    + intros [= <-] _. rewrite length_take. lia.
    + intros Hx Hlen. eapply IH; [|exact Hx|lia]. rewrite length_drop. lia.
  - destruct i as [|i]; simpl; [lia|done].
Qed.

End ChunkFacts.

(** C2 (on the chunker as the spec describes it): for a text [t], a chunk
    size [c] and an overlap [o < c], the [i]-th chunk is the slice of [c]
    characters of [t] that starts at [i * (c - o)] (so only the last chunk
    can be shorter than [c]), and the first chunk followed by the other
    chunks without their first [o] characters is [t] again. *)
Theorem chunk_text_reassemble (t : string) (c o : nat) :
  o < c →
  (∀ i x, chunk_text c o t !! i = Some x →
     x = PyStr.take c (PyStr.drop (i * (c - o)) t)
     ∧ (S i < length (chunk_text c o t) → String.length x = c))
  ∧ reassemble o (chunk_text c o t) = t.
Proof.
  intros Hoc. unfold chunk_text. split.
  - intros i x Hx. split.
    + eapply ChunkFacts.chunk_from_lookup; [done| |done]. lia.
    + intros Hi. eapply ChunkFacts.chunk_from_full; [done| |done|done]. lia.
  - apply ChunkFacts.reassemble_chunk_from; [done|lia].
Qed.

Lemma chunk_text_reassemble_witness :
  1 < 4
  ∧ chunk_text 4 1 "abcdefghij" = ["abcd"; "defg"; "ghij"; "j"]
  ∧ reassemble 1 (chunk_text 4 1 "abcdefghij") = "abcdefghij".
Proof.
  split; [lia|]. split; [reflexivity|].
  apply (chunk_text_reassemble "abcdefghij" 4 1). lia.
Defined.

Lemma drop_take_window a b s :
  PyStr.drop a (PyStr.take (a + b) s) = PyStr.take b (PyStr.drop a s).
Proof.
  revert s. induction a as [|a IH]; intros s; [done|].
  destruct s as [|c s]; [by destruct b|]. apply IH.
Qed.

Lemma take_take a b s : a ≤ b → PyStr.take a (PyStr.take b s) = PyStr.take a s.
Proof.
  revert b s. induction a as [|a IH]; intros b s Hab; [done|].
  destruct b as [|b]; [lia|]. destruct s as [|c s]; [done|].
  simpl. rewrite IH; [done|lia].
Qed.

(** C8, as the chunker of the spec computes it: a text of 2400 characters
    with chunk size 1000 and overlap 150 gives three chunks of 1000, 1000
    and 700 characters (the third window starts at 1700), and the last 150
    characters of a chunk are the first 150 of the next one. *)
Theorem chunk_text_2400 (t : string) :
  String.length t = 2400 →
  ∃ c1 c2 c3,
    chunk_text 1000 150 t = [c1; c2; c3]
    ∧ String.length c1 = 1000 ∧ String.length c2 = 1000 ∧ String.length c3 = 700
    ∧ PyStr.drop 850 c1 = PyStr.take 150 c2
    ∧ PyStr.drop 850 c2 = PyStr.take 150 c3.
Proof.
  intros Hlen.
  set (u := PyStr.drop (1000 - 150) t).
  set (v := PyStr.drop (1000 - 150) u).
  assert (Hu : String.length u = 1550).
  { unfold u. rewrite ChunkFacts.length_drop, Hlen. reflexivity. }
  assert (Hv : String.length v = 700).
  { unfold v. rewrite ChunkFacts.length_drop, Hu. reflexivity. }
  exists (PyStr.take 1000 t), (PyStr.take 1000 u), v.
  split.
  { unfold chunk_text. rewrite Hlen.
    rewrite ChunkFacts.chunk_from_unfold, Hlen.
    change (1000 <=? 2400) with true. cbv iota. fold u.
    rewrite ChunkFacts.chunk_from_unfold, Hu.
    change (1000 <=? 1550) with true. cbv iota. fold v.
    rewrite ChunkFacts.chunk_from_unfold, Hv.
    change (1000 <=? 700) with false. reflexivity. }
  rewrite !ChunkFacts.length_take, Hlen, Hu.
  repeat split; try reflexivity; try exact Hv.
  - change 1000 with (850 + 150). rewrite drop_take_window.
    change (850 + 150) with 1000. fold u.
    change (PyStr.drop 850 t) with u.
    symmetry. apply take_take. lia.
  - change 1000 with (850 + 150). by rewrite drop_take_window.
Qed.

Lemma chunk_text_2400_witness :
  String.length (str_repeat "a" 2400) = 2400
  ∧ ∃ c1 c2 c3,
      chunk_text 1000 150 (str_repeat "a" 2400) = [c1; c2; c3]
      ∧ String.length c1 = 1000 ∧ String.length c2 = 1000 ∧ String.length c3 = 700
      ∧ PyStr.drop 850 c1 = PyStr.take 150 c2
      ∧ PyStr.drop 850 c2 = PyStr.take 150 c3.
Proof.
  split; [vm_compute; reflexivity|].
  apply (chunk_text_2400 (str_repeat "a" 2400)). vm_compute. reflexivity.
Defined.

(** C8 as written fails: the third chunk of a text of 2400 characters has
    700 characters, not 550. *)
Lemma chunk_text_2400_not_550 : ¬ chunks_1000_1000_550 (str_repeat "a" 2400).
Proof.
  unfold chunks_1000_1000_550. intros H.
  apply (f_equal (λ l, nth 2 l 0 =? 550)) in H.
  vm_compute in H. discriminate H.
Qed.

(** ** The crawl loop *)

Section CrawlerFacts.

Variable requests_get : nat → string → result soup.
Variable urljoin : string → string → result string.

Local Abbreviation queue_links := (queue_links urljoin).
Local Abbreviation iteration := (iteration requests_get urljoin).
Local Abbreviation run := (run requests_get urljoin).
Local Abbreviation crawl_wiki := (crawl_wiki requests_get urljoin).
Local Abbreviation pass := (pass requests_get urljoin).
Local Abbreviation gets_inv := (gets_inv requests_get).

(** Queueing links only touches the queue and the output. *)
Lemma queue_links_visited u hs s : visited (queue_links u hs s) = visited s.
Proof.
  revert s. induction hs as [|h hs IH]; intros s; [done|].
  queue_links_field IH.
Qed.

Lemma queue_links_pages u hs s : pages (queue_links u hs s) = pages s.
Proof.
  revert s. induction hs as [|h hs IH]; intros s; [done|].
  queue_links_field IH.
Qed.

Lemma queue_links_gets u hs s : gets (queue_links u hs s) = gets s.
Proof.
  revert s. induction hs as [|h hs IH]; intros s; [done|].
  queue_links_field IH.
Qed.

Lemma loop_cond_true max_pages s :
  loop_cond max_pages s = true ↔ to_visit s ≠ [] ∧ size (visited s) < max_pages.
Proof.
  unfold loop_cond. destruct (to_visit s).
  - split; [done|]. by intros [? _].
  - rewrite Nat.ltb_lt. split; [done|]. by intros [_ ?].
Qed.

Lemma loop_cond_false max_pages s :
  loop_cond max_pages s = false ↔ to_visit s = [] ∨ max_pages ≤ size (visited s).
Proof.
  unfold loop_cond. destruct (to_visit s).
  - split; [by left|done].
  - rewrite Nat.ltb_ge. split; [by right|]. by intros [?|?].
Qed.

Lemma iteration_pass s : to_visit s ≠ [] → pass s (iteration s).
Proof.
  intros Hq. unfold iteration.
  destruct (to_visit s) as [|u rest] eqn:Hs; [done|].
  destruct (bool_decide (u ∈ visited (pop rest s))) eqn:Hv; simpl.
  { apply bool_decide_eq_true in Hv. eapply pass_skip; eauto. }
  apply bool_decide_eq_false in Hv.
  destruct (is_excluded_url u) eqn:Hx.
  { eapply pass_skip; eauto. }
  destruct (requests_get (length (gets s)) u) as [sp|e] eqn:Hg.
  - by eapply pass_page.
  - by eapply pass_error.
Qed.

(** Each pass either shortens the queue and leaves the visited set alone,
    or adds one URL to the visited set. *)
Lemma pass_progress s s' :
  pass s s' →
  (visited s' = visited s ∧ length (to_visit s') < length (to_visit s))
  ∨ size (visited s') = S (size (visited s)).
Proof.
  destruct 1 as [u rest Hq _|u rest e Hq _ _ _|u rest sp Hq Hv _ _].
  - left. rewrite Hq. simpl. split; [done|lia].
  - left. rewrite Hq. simpl. split; [done|lia].
  - right. rewrite queue_links_visited. simpl.
    rewrite size_union, size_singleton; [done|]. set_solver.
Qed.

Lemma run_S_r max_pages k s :
  run max_pages (S k) s =
  if loop_cond max_pages (run max_pages k s)
  then iteration (run max_pages k s) else run max_pages k s.
Proof.
  revert s. induction k as [|k IH]; intros s.
  - simpl. by destruct (loop_cond max_pages s).
  - change (run max_pages (S (S k)) s) with
      (if loop_cond max_pages s then run max_pages (S k) (iteration s) else s).
    destruct (loop_cond max_pages s) eqn:Hc.
    + rewrite IH. simpl. by rewrite Hc.
    + simpl. by rewrite !Hc.
Qed.

Lemma run_stable max_pages k j s :
  loop_cond max_pages (run max_pages k s) = false → k ≤ j →
  run max_pages j s = run max_pages k s.
Proof.
  intros Hc. induction 1 as [|j _ IH]; [done|].
  by rewrite run_S_r, IH, Hc.
Qed.

(** A property kept by every pass holds at every point of the loop. *)
Lemma run_invariant max_pages (P : state → Prop) :
  (∀ s s', P s → loop_cond max_pages s = true → pass s s' → P s') →
  ∀ k s, P s → P (run max_pages k s).
Proof.
  intros Hstep. induction k as [|k IH]; intros s Hs; [done|].
  rewrite run_S_r. destruct (loop_cond _ _) eqn:Hc; [|by apply IH].
  eapply Hstep; [by apply IH|done|].
  apply iteration_pass. by apply loop_cond_true in Hc as [? _].
Qed.

(** The loop ends: lexicographic descent on the remaining budget and the
    length of the queue. *)
Lemma loop_ends max_pages a : ∀ b s,
  max_pages - size (visited s) ≤ a → length (to_visit s) ≤ b →
  ∃ k, loop_cond max_pages (run max_pages k s) = false
       ∧ ∀ j, j < k → loop_cond max_pages (run max_pages j s) = true.
Proof.
  induction a as [|a IHa].
  { intros b s Ha _. exists 0. split; [|lia].
    apply loop_cond_false. right. simpl. lia. }
  induction b as [|b IHb]; intros s Ha Hb.
  { exists 0. split; [|lia]. apply loop_cond_false. left.
    simpl. destruct (to_visit s); [done|simpl in Hb; lia]. }
  destruct (loop_cond max_pages s) eqn:Hc; [|exists 0; split; [done|lia]].
  assert (Hnext : ∃ k, loop_cond max_pages (run max_pages k (iteration s)) = false
       ∧ ∀ j, j < k → loop_cond max_pages (run max_pages j (iteration s)) = true).
  { pose proof Hc as [Hq Hsz]%loop_cond_true.
    destruct (pass_progress s _ (iteration_pass s Hq)) as [[Hv Hlen]|Hv].
    - apply IHb; [rewrite Hv; lia|lia].
    - apply (IHa (length (to_visit (iteration s)))); [lia|done]. }
  destruct Hnext as (k & Hk & Hlt). exists (S k). split.
  - simpl. by rewrite Hc.
  - intros [|j] Hj; [done|]. simpl. rewrite Hc. apply Hlt. lia.
Qed.

Lemma loop_ends_from max_pages s :
  ∃ k, loop_cond max_pages (run max_pages k s) = false
       ∧ ∀ j, j < k → loop_cond max_pages (run max_pages j s) = true.
Proof. by eapply loop_ends. Qed.

Lemma visited_within_budget max_pages start_url k :
  size (visited (run max_pages k (init start_url))) ≤ max_pages.
Proof.
  apply (run_invariant max_pages (λ s, size (visited s) ≤ max_pages)).
  - intros s s' _ [_ Hlt]%loop_cond_true Hpass.
    destruct (pass_progress _ _ Hpass) as [[-> _] | ->]; lia.
  - change (size (∅ : gset string) ≤ max_pages). rewrite size_empty. lia.
Qed.

(** C4: the loop of a crawl ends after some number [k] of passes; at that
    point the queue is empty or the visited set has exactly [max_pages]
    elements; before it the queue is non-empty and the visited set smaller
    than [max_pages], so another pass is made; and at no point does the
    visited set hold more than [max_pages] URLs. *)
Theorem crawl_loop_stops_within_budget (start_url : string) (max_pages : nat) :
  (∃ k,
     (to_visit (run max_pages k (init start_url)) = []
      ∨ size (visited (run max_pages k (init start_url))) = max_pages)
     ∧ (∀ j, j < k →
          to_visit (run max_pages j (init start_url)) ≠ []
          ∧ size (visited (run max_pages j (init start_url))) < max_pages
          ∧ run max_pages (S j) (init start_url)
            = iteration (run max_pages j (init start_url)))
     ∧ (∀ j, k ≤ j →
          run max_pages j (init start_url) = run max_pages k (init start_url))
     ∧ (∀ fuel, is_Some (crawl_wiki fuel start_url max_pages) ↔ k ≤ fuel))
  ∧ ∀ j, size (visited (run max_pages j (init start_url))) ≤ max_pages.
Proof.
  split; [|apply visited_within_budget].
  destruct (loop_ends_from max_pages (init start_url)) as (k & Hk & Hlt).
  exists k. split; [|split; [|split]].
  - apply loop_cond_false in Hk as [Hq|Hsz]; [by left|right].
    pose proof (visited_within_budget max_pages start_url k). lia.
  - intros j Hj. pose proof (Hlt j Hj) as Hc.
    pose proof Hc as [Hq Hsz]%loop_cond_true.
    split; [done|]. split; [done|]. by rewrite run_S_r, Hc.
  - intros j Hj. by apply run_stable.
  - intros fuel. unfold crawl_wiki. split.
    + intros Hsome.
      destruct (loop_cond max_pages (run max_pages fuel (init start_url))) eqn:Hc;
        [by destruct Hsome|].
      destruct (decide (k ≤ fuel)) as [|Hn]; [done|].
      rewrite Hlt in Hc; [done|lia].
    + intros Hle. by rewrite (run_stable max_pages k fuel), Hk.
Qed.

Lemma run_done max_pages k s :
  loop_cond max_pages s = false → run max_pages k s = s.
Proof. intros Hc. destruct k; simpl; by rewrite ?Hc. Qed.

Lemma pages_inv_pass s s' : pages_inv s → pass s s' → pages_inv s'.
Proof.
  intros [Hnd Hvis]. destruct 1 as [u rest Hq _|u rest e Hq _ _ _|u rest sp Hq Hv _ _].
  - done.
  - done.
  - split.
    + rewrite queue_links_pages. simpl. rewrite fmap_app. apply NoDup_app.
      split; [done|]. split; [|apply NoDup_singleton].
      intros x Hx ->%list_elem_of_singleton.
      apply list_elem_of_fmap in Hx as (p & Heq & Hp). simpl in Heq.
      apply Hv. rewrite Heq. by apply Hvis.
    + intros p. rewrite queue_links_pages, queue_links_visited. simpl.
      intros [Hp| ->%list_elem_of_singleton]%elem_of_app.
      * apply elem_of_union_r. by apply Hvis.
      * apply elem_of_union_l. by apply elem_of_singleton.
Qed.

Lemma pages_inv_run max_pages start_url k :
  pages_inv (run max_pages k (init start_url)).
Proof.
  apply (run_invariant max_pages pages_inv).
  - intros s s' Hs _. by apply pages_inv_pass.
  - split; [constructor|]. intros p Hp. by apply not_elem_of_nil in Hp.
Qed.

(** C9: at every point of a crawl the urls of the Page Records collected
    so far are pairwise distinct and all belong to the visited set; the
    crawl returns, and the urls of the returned Page Records are pairwise
    distinct. *)
Theorem crawl_pages_distinct (start_url : string) (max_pages : nat) :
  (∀ k, NoDup (url <$> pages (run max_pages k (init start_url)))
        ∧ ∀ p, p ∈ pages (run max_pages k (init start_url)) →
               url p ∈ visited (run max_pages k (init start_url)))
  ∧ (∃ fuel, is_Some (crawl_wiki fuel start_url max_pages))
  ∧ (∀ fuel s, crawl_wiki fuel start_url max_pages = Some s →
               NoDup (url <$> pages s)).
Proof.
  split; [intros k; apply pages_inv_run|]. split.
  - destruct (loop_ends_from max_pages (init start_url)) as (k & Hk & _).
    exists k. unfold crawl_wiki. by rewrite Hk.
  - intros fuel s. unfold crawl_wiki.
    destruct (loop_cond _ _); [done|]. intros [= <-]. simpl.
    apply pages_inv_run.
Qed.

Lemma gets_inv_refetch s u :
  gets_inv s → u ∉ visited s →
  ∀ i j v, i < j → (gets s ++ [u]) !! i = Some v → (gets s ++ [u]) !! j = Some v →
           ∃ e, requests_get i v = Raise e.
Proof.
  intros [Hok Hre] Hv i j v Hij Hi Hj.
  apply lookup_snoc_Some in Hj as [[Hjlen Hj]|[-> ->]].
  - rewrite lookup_app_l in Hi by lia. by eapply Hre.
  - rewrite lookup_app_l in Hi by lia.
    destruct (requests_get i v) as [sp|e] eqn:Hg; [|by eexists].
    destruct Hv. by eapply Hok.
Qed.

Lemma gets_inv_pass s s' : gets_inv s → pass s s' → gets_inv s'.
Proof.
  intros Hinv. pose proof Hinv as [Hok Hre].
  destruct 1 as [u rest Hq _|u rest e Hq Hv _ Hg|u rest sp Hq Hv _ Hg].
  - done.
  - split; simpl.
    + intros i v sp [[_ Hi]|[-> ->]]%lookup_snoc_Some Hsp; [by eapply Hok|congruence].
    + by apply gets_inv_refetch.
  - split.
    + rewrite queue_links_gets, queue_links_visited. simpl.
      intros i v sp' [[_ Hi]|[-> ->]]%lookup_snoc_Some Hsp.
      * apply elem_of_union_r. by eapply Hok.
      * apply elem_of_union_l. by apply elem_of_singleton.
    + rewrite queue_links_gets. simpl. by apply gets_inv_refetch.
Qed.

Lemma gets_inv_run max_pages start_url k :
  gets_inv (run max_pages k (init start_url)).
Proof.
  apply (run_invariant max_pages gets_inv).
  - intros s s' Hs _. by apply gets_inv_pass.
  - split; simpl; intros; by simplify_eq.
Qed.


(** Every Page Record comes from a fetch of its url that succeeded. *)
Lemma page_records_from_successful_fetch start_url max_pages k p :
  p ∈ pages (run max_pages k (init start_url)) →
  ∃ i sp, gets (run max_pages k (init start_url)) !! i = Some (url p)
          ∧ requests_get i (url p) = Ok sp.
Proof.
  revert p.
  apply (run_invariant max_pages (λ s, ∀ p, p ∈ pages s →
    ∃ i sp, gets s !! i = Some (url p) ∧ requests_get i (url p) = Ok sp)).
  - intros s s' Hs _.
    destruct 1 as [u rest Hq _|u rest e Hq Hv _ Hg|u rest sp Hq Hv _ Hg]; simpl.
    + done.
    + intros p (i & sp & Hi & Hsp)%Hs. exists i, sp.
      split; [by apply lookup_app_l_Some|done].
    + intros p. rewrite queue_links_pages, queue_links_gets. simpl.
      intros [(i & sp' & Hi & Hsp)%Hs| ->%list_elem_of_singleton]%elem_of_app.
      * exists i, sp'. split; [by apply lookup_app_l_Some|done].
      * exists (length (gets s)), sp. split; [|done].
        apply lookup_snoc_Some. by right.
  - intros p Hp. by apply not_elem_of_nil in Hp.
Qed.

(** C5: when the fetch or parse of the URL at the head of the queue raises,
    the pass prints the error with that URL, adds no Page Record, leaves
    the visited set alone, and the loop goes on with the rest of the queue. *)
Theorem fetch_failure_skips_page
    (max_pages : nat) (s : state) (u : string) (rest : list string) (e : string) :
  to_visit s = u :: rest →
  u ∉ visited s →
  is_excluded_url u = false →
  requests_get (length (gets s)) u = Raise e →
  pages (iteration s) = pages s
  ∧ visited (iteration s) = visited s
  ∧ to_visit (iteration s) = rest
  ∧ stdout (iteration s)
    = stdout s ++ ["Fetching: " +:+ u; "Error fetching " +:+ u +:+ ": " +:+ e]
  ∧ ∀ k, size (visited s) < max_pages →
         run max_pages (S k) s = run max_pages k (iteration s).
Proof.
  intros Hq Hv Hx Hg.
  assert (Hit : iteration s
    = log_error u e (record_get u (print ("Fetching: " +:+ u) (pop rest s)))).
  { unfold iteration. rewrite Hq. simpl.
    rewrite bool_decide_eq_false_2, Hx by done. simpl. by rewrite Hg. }
  rewrite Hit. simpl. repeat split.
  - by rewrite <- app_assoc.
  - intros k Hsz. rewrite Hit.
    assert (Hc : loop_cond max_pages s = true).
    { apply loop_cond_true. split; [by rewrite Hq|done]. }
    by rewrite Hc.
Qed.

(** A reference that [urljoin] rejects is reported by the same handler,
    but then the page has already been recorded and marked visited. *)
Lemma link_failure_keeps_page s u rest sp href hs e :
  to_visit s = u :: rest →
  u ∉ visited s →
  is_excluded_url u = false →
  requests_get (length (gets s)) u = Ok sp →
  hrefs sp = href :: hs →
  urljoin u href = Raise e →
  pages (iteration s) = pages s ++ [{| url := u; text := clean_text (get_text sp) |}]
  ∧ u ∈ visited (iteration s)
  ∧ to_visit (iteration s) = rest.
Proof.
  intros Hq Hv Hx Hg Hh Hj. unfold iteration. rewrite Hq. simpl.
  rewrite bool_decide_eq_false_2, Hx by done. simpl. rewrite Hg, Hh. simpl.
  rewrite Hj. simpl. repeat split. set_solver.
Qed.

(** C10: when the start URL matches the exclusion filter, a crawl with fuel
    for at least one pass returns, with no Page Record and without a single
    HTTP GET. *)
Theorem excluded_start_fetches_nothing
    (start_url : string) (max_pages fuel : nat) :
  is_excluded_url start_url = true →
  1 ≤ fuel →
  ∃ s, crawl_wiki fuel start_url max_pages = Some s
       ∧ pages s = [] ∧ gets s = [] ∧ visited s = ∅.
Proof.
  intros Hx Hfuel. destruct fuel as [|fuel]; [lia|].
  unfold crawl_wiki. simpl.
  destruct (loop_cond max_pages (init start_url)) eqn:Hc.
  - assert (Hit : iteration (init start_url) = pop [] (init start_url)).
    { unfold iteration. simpl. rewrite Hx. by rewrite orb_true_r. }
    rewrite Hit, run_done by done. simpl. by eexists.
  - rewrite Hc. by eexists.
Qed.

End CrawlerFacts.

(** ** The orchestrator *)

Section OrchestratorFacts.

Variable requests_get : nat → string → result soup.
Variable urljoin : string → string → result string.
Variable create_documents : list string → list string → list document.
Variable vectorstore_path : string.

(** C6: when the two crawls return and their concatenated page list is
    empty, [build_vectorstore] returns after printing the abort message:
    beyond the output of the crawls there is that one line, and no
    splitting, embedding, index construction, directory creation or save. *)
Theorem empty_corpus_aborts (fuel : nat) (out : list string) :
  crawl_roots requests_get urljoin fuel = Some (out, []) →
  ∃ effs,
    build_vectorstore requests_get urljoin create_documents vectorstore_path fuel
      = Some effs
    ∧ effs = map PrintLine out ++ [PrintLine "No pages crawled. Exiting."]
    ∧ forallb is_print effs = true.
Proof.
  intros Hroots. unfold build_vectorstore. rewrite Hroots.
  eexists. split; [reflexivity|]. split; [reflexivity|].
  rewrite forallb_app. simpl. rewrite andb_true_r.
  clear Hroots. induction out as [|l out' IH]; [done|exact IH].
Qed.

End OrchestratorFacts.

(** ** The statements at sample inputs *)

Lemma empty_corpus_aborts_witness :
  crawl_roots world_down wiki_urljoin 1 = Some (down_output, [])
  ∧ ∃ effs,
      build_vectorstore world_down wiki_urljoin (λ _ _, []) "vectorstore" 1 = Some effs
      ∧ effs = map PrintLine down_output ++ [PrintLine "No pages crawled. Exiting."]
      ∧ forallb is_print effs = true.
Proof.
  split; [vm_compute; reflexivity|].
  apply (empty_corpus_aborts world_down wiki_urljoin (λ _ _, []) "vectorstore" 1).
  vm_compute. reflexivity.
Defined.



Lemma fetch_failure_skips_page_witness :
  pages (iteration world_down wiki_urljoin (init start_page)) = []
  ∧ visited (iteration world_down wiki_urljoin (init start_page)) = ∅
  ∧ to_visit (iteration world_down wiki_urljoin (init start_page)) = []
  ∧ stdout (iteration world_down wiki_urljoin (init start_page))
    = [] ++ ["Fetching: " +:+ start_page;
             "Error fetching " +:+ start_page +:+ ": " +:+ "Connection refused"]
  ∧ ∀ k, size (visited (init start_page)) < 10 →
         run world_down wiki_urljoin 10 (S k) (init start_page)
         = run world_down wiki_urljoin 10 k
             (iteration world_down wiki_urljoin (init start_page)).
Proof.
  apply (fetch_failure_skips_page world_down wiki_urljoin 10
           (init start_page) start_page [] "Connection refused").
  - reflexivity.
  - apply not_elem_of_empty.
  - vm_compute. reflexivity.
  - reflexivity.
Defined.

Lemma excluded_start_fetches_nothing_witness :
  is_excluded_url "https://wiki.freecad.org/Start.png" = true
  ∧ ∃ s, crawl_wiki world_down wiki_urljoin 1 "https://wiki.freecad.org/Start.png" 10
         = Some s
         ∧ pages s = [] ∧ gets s = [] ∧ visited s = ∅.
Proof.
  split; [vm_compute; reflexivity|].
  apply (excluded_start_fetches_nothing world_down wiki_urljoin
           "https://wiki.freecad.org/Start.png" 10 1).
  - vm_compute. reflexivity.
  - lia.
Defined.

(** A crawl that meets an unresolvable reference keeps the page. *)
Example crawl_bad_href :
  option_map (λ s, (url <$> pages s, gets s))
    (crawl_wiki world_bad_href strict_urljoin 1 start_page 10)
  = Some ([start_page], [start_page]).
Proof. vm_compute. reflexivity. Qed.

(** The first pass of a crawl: the page is recorded and both copies of the
    link are queued. *)
Example crawl_dup_first_pass :
  to_visit (run world_dup_fail wiki_urljoin 10 1 (init start_page))
  = [missing_page; missing_page].
Proof. vm_compute. reflexivity. Qed.

(** * Further properties *)

(** ** The URL filter, beyond the claims *)

Module FilterMore.
Import PyStr.

Lemma lower_char_idemp c : lower_char (lower_char c) = lower_char c.
Proof. destruct c as [[] [] [] [] [] [] [] []]; reflexivity. Qed.

Lemma lower_idemp s : lower (lower s) = lower s.
Proof.
  induction s as [|c s IH]; [done|]. simpl. by rewrite lower_char_idemp, IH.
Qed.

Lemma contains_append_l n a h :
  contains n h = true → contains n (a +:+ h) = true.
Proof.
  intros Hh. induction a as [|c a IH]; [done|].
  change (String c a +:+ h) with (String c (a +:+ h)).
  change (contains n (String c (a +:+ h)))
    with (String.prefix n (String c (a +:+ h)) || contains n (a +:+ h)).
  rewrite IH. apply orb_true_r.
Qed.

Lemma contains_embed n a h b :
  contains n h = true → contains n (a +:+ h +:+ b) = true.
Proof. intros Hh. by apply contains_append_l, FilterFacts.contains_append_r. Qed.

Lemma prefix_refl n : String.prefix n n = true.
Proof.
  induction n as [|c n IH]; [done|]. simpl.
  by destruct (ascii_dec c c).
Qed.

Lemma contains_refl n : contains n n = true.
Proof. destruct n; simpl; [done|]. rewrite prefix_refl.
  by destruct (ascii_dec a a). Qed.

Lemma lower_embed a u b :
  lower (a +:+ u +:+ b) = lower a +:+ lower u +:+ lower b.
Proof. by rewrite !FilterFacts.lower_append. Qed.

Lemma existsb_impl {A} (f g : A → bool) l :
  (∀ x, f x = true → g x = true) → existsb f l = true → existsb g l = true.
Proof.
  intros Hfg. rewrite !existsb_exists. intros (x & Hx & Hf). exists x. auto.
Qed.

End FilterMore.

(** X1: the verdict does not depend on the letter case of the URL. *)
Theorem is_excluded_url_lower (u : string) :
  is_excluded_url (PyStr.lower u) = is_excluded_url u.
Proof. unfold is_excluded_url. by rewrite FilterMore.lower_idemp. Qed.

(** X2: all tests of the filter are substring tests: a URL that contains an
    excluded URL is excluded. *)
Theorem is_excluded_url_extend (a u b : string) :
  is_excluded_url u = true → is_excluded_url (a +:+ u +:+ b) = true.
Proof.
  unfold is_excluded_url. rewrite FilterMore.lower_embed.
  set (l := PyStr.lower u).
  set (x := PyStr.lower a +:+ l +:+ PyStr.lower b).
  assert (Hmono : ∀ n, PyStr.contains n l = true → PyStr.contains n x = true).
  { intros n. apply FilterMore.contains_embed. }
  destruct (PyStr.contains "wiki.freecad.org" x
            && existsb (λ lang, PyStr.contains lang x) LANG_IDENTIFIERS) eqn:Hx; [done|].
  destruct (PyStr.contains "wiki.freecad.org" l
            && existsb (λ lang, PyStr.contains lang l) LANG_IDENTIFIERS) eqn:Hl.
  - intros _. apply andb_prop in Hl as [Hw Hlang].
    pose proof (FilterMore.existsb_impl _ (λ lang, PyStr.contains lang x) _
                  (λ n, Hmono n) Hlang) as Hlang'.
    by rewrite (Hmono _ Hw), Hlang' in Hx.
  - intros [[H|H]%orb_prop|H]%orb_prop; rewrite (Hmono _ H);
      rewrite ?orb_true_r; done.
Qed.

Lemma is_excluded_url_extend_witness :
  is_excluded_url "/Icon.png" = true
  ∧ is_excluded_url ("https://github.com/shaise" +:+ "/Icon.png" +:+ "?raw=true") = true.
Proof.
  split; [vm_compute; reflexivity|].
  apply (is_excluded_url_extend "https://github.com/shaise" "/Icon.png" "?raw=true").
  vm_compute. reflexivity.
Defined.

(** X3: an image extension or the edit-action marker, in any letter case and
    anywhere in the URL, excludes the URL whatever its domain. *)
Theorem is_excluded_url_asset_any_case (a m b : string) :
  PyStr.lower m ∈ ASSET_MARKERS →
  is_excluded_url (a +:+ m +:+ b) = true.
Proof.
  intros Hm. unfold is_excluded_url. rewrite FilterMore.lower_embed.
  set (x := PyStr.lower a +:+ PyStr.lower m +:+ PyStr.lower b).
  assert (Hc : PyStr.contains (PyStr.lower m) x = true).
  { apply FilterMore.contains_embed, FilterMore.contains_refl. }
  destruct (PyStr.contains "wiki.freecad.org" x && _); [done|].
  unfold ASSET_MARKERS in Hm.
  apply elem_of_cons in Hm as [Hm|Hm]; [by rewrite <- Hm, Hc|].
  apply elem_of_cons in Hm as [Hm|Hm]; [by rewrite <- Hm, Hc, orb_true_r|].
  apply list_elem_of_singleton in Hm. by rewrite <- Hm, Hc, orb_true_r.
Qed.

Lemma is_excluded_url_asset_any_case_witness :
  PyStr.lower ".JPG" ∈ ASSET_MARKERS
  ∧ is_excluded_url ("https://github.com/shaise/photo" +:+ ".JPG" +:+ "") = true.
Proof.
  split; [vm_compute; apply list_elem_of_here|].
  apply (is_excluded_url_asset_any_case "https://github.com/shaise/photo" ".JPG" "").
  vm_compute. apply list_elem_of_here.
Defined.

(** ** The crawler, beyond the claims *)

Section CrawlerMore.

Variable requests_get : nat → string → result soup.
Variable urljoin : string → string → result string.

Local Abbreviation queue_links := (queue_links urljoin).
Local Abbreviation iteration := (iteration requests_get urljoin).
Local Abbreviation run := (run requests_get urljoin).
Local Abbreviation crawl_wiki := (crawl_wiki requests_get urljoin).
Local Abbreviation pass := (pass requests_get urljoin).

Lemma queue_links_cons u h hs s :
  queue_links u (h :: hs) s =
  match urljoin u h with
  | Raise e => log_error u e s
  | Ok full =>
      if whitelisted full then
        if negb (bool_decide (full ∈ visited s)) && negb (is_excluded_url full)
        then queue_links u hs (enqueue full s)
        else queue_links u hs s
      else queue_links u hs s
  end.
Proof. reflexivity. Qed.

(** Only whitelisted URLs that pass the filter are added to the queue. *)
Lemma queue_links_to_visit u hs s x :
  x ∈ to_visit (queue_links u hs s) →
  x ∈ to_visit s ∨ (whitelisted x = true ∧ is_excluded_url x = false).
Proof.
  revert s. induction hs as [|h hs IH]; intros s; [by left|].
  rewrite queue_links_cons.
  destruct (urljoin u h) as [full|e]; [|by left].
  destruct (whitelisted full) eqn:Hw; [|apply IH].
  destruct (negb (bool_decide (full ∈ visited s)) && negb (is_excluded_url full)) eqn:Hc;
    [|apply IH].
  intros [Hx|Hx]%IH; [|by right]. simpl in Hx.
  apply elem_of_app in Hx as [Hx| ->%list_elem_of_singleton]; [by left|right].
  apply andb_prop in Hc as [_ Hex%negb_true_iff]. done.
Qed.

Lemma fetch_inv_pass start_url s s' :
  Forall (allowed start_url) (to_visit s) ∧ Forall (fetchable start_url) (gets s) →
  pass s s' →
  Forall (allowed start_url) (to_visit s') ∧ Forall (fetchable start_url) (gets s').
Proof.
  intros [Hq Hg].
  destruct 1 as [u rest Hu Hskip|u rest e Hu Hv Hx Hr|u rest sp Hu Hv Hx Hr];
    rewrite Hu in Hq; apply Forall_cons in Hq as [Hhd Hrest].
  - done.
  - split; [done|]. simpl. apply Forall_app. split; [done|].
    by apply Forall_singleton.
  - split.
    + apply Forall_forall. intros x [Hin|[Hw _]]%queue_links_to_visit.
      * simpl in Hin. by eapply Forall_forall in Hrest.
      * by right.
    + rewrite queue_links_gets. simpl. apply Forall_app. split; [done|].
      by apply Forall_singleton.
Qed.

(** X5: every URL handed to the HTTP GET passed the exclusion filter and is
    either the start URL of the crawl or under a whitelisted prefix; the
    same holds, filter apart, for every URL waiting in the queue. *)
Theorem crawl_fetches_only_allowed (start_url : string) (max_pages k : nat) :
  Forall (fetchable start_url) (gets (run max_pages k (init start_url)))
  ∧ Forall (allowed start_url) (to_visit (run max_pages k (init start_url))).
Proof.
  cut (Forall (allowed start_url) (to_visit (run max_pages k (init start_url)))
       ∧ Forall (fetchable start_url) (gets (run max_pages k (init start_url)))).
  { by intros [? ?]. }
  apply (run_invariant requests_get urljoin max_pages
    (λ s, Forall (allowed start_url) (to_visit s)
          ∧ Forall (fetchable start_url) (gets s))).
  - intros s s' Hs _. by apply fetch_inv_pass.
  - split; simpl; [|constructor]. apply Forall_singleton. by left.
Qed.

Lemma count_inv_pass s s' : count_inv s → pass s s' → count_inv s'.
Proof.
  intros [Hlen Hset].
  destruct 1 as [u rest Hu Hskip|u rest e Hu Hv Hx Hr|u rest sp Hu Hv Hx Hr].
  - done.
  - done.
  - split.
    + rewrite queue_links_pages, queue_links_visited.
      cbn [pages visited append_page mark_visited record_get print pop].
      assert (Hdisj : {[u]} ## visited s) by (by apply disjoint_singleton_l).
      rewrite length_app, size_union, size_singleton by done.
      simpl. lia.
    + rewrite queue_links_pages, queue_links_visited.
      cbn [pages visited append_page mark_visited record_get print pop].
      rewrite fmap_app.
      change (url <$> [{| url := u; text := clean_text (get_text sp) |}]) with [u].
      rewrite list_to_set_snoc_L, <- Hset.
      apply union_comm_L.
Qed.

Lemma count_inv_run max_pages start_url k :
  count_inv (run max_pages k (init start_url)).
Proof.
  apply (run_invariant requests_get urljoin max_pages count_inv).
  - intros s s' Hs _. by apply count_inv_pass.
  - split; [|done]. change (0 = size (∅ : gset string)). by rewrite size_empty.
Qed.

(** X6: at every point of a crawl there are as many Page Records as visited
    URLs, the visited set is the set of their urls, and there are at most
    [max_pages] of them.  The crawl returns at most [max_pages] records,
    and exactly [max_pages] when it stops with URLs still in the queue. *)
Theorem crawl_page_count (start_url : string) (max_pages : nat) :
  (∀ k, length (pages (run max_pages k (init start_url)))
          = size (visited (run max_pages k (init start_url)))
        ∧ visited (run max_pages k (init start_url))
          = list_to_set (url <$> pages (run max_pages k (init start_url)))
        ∧ length (pages (run max_pages k (init start_url))) ≤ max_pages)
  ∧ ∃ fuel s, crawl_wiki fuel start_url max_pages = Some s
              ∧ length (pages s) ≤ max_pages
              ∧ (to_visit s = [] ∨ length (pages s) = max_pages).
Proof.
  assert (Hk : ∀ k, length (pages (run max_pages k (init start_url)))
          = size (visited (run max_pages k (init start_url)))
        ∧ visited (run max_pages k (init start_url))
          = list_to_set (url <$> pages (run max_pages k (init start_url)))
        ∧ length (pages (run max_pages k (init start_url))) ≤ max_pages).
  { intros k. destruct (count_inv_run max_pages start_url k) as [Hlen Hset].
    split; [done|]. split; [done|]. rewrite Hlen.
    apply visited_within_budget. }
  split; [exact Hk|].
  destruct (loop_ends_from requests_get urljoin max_pages (init start_url))
    as (k & Hend & _).
  exists k. eexists. unfold crawl_wiki. rewrite Hend.
  split; [reflexivity|]. simpl.
  destruct (Hk k) as (Hlen & _ & Hle). split; [done|].
  apply loop_cond_false in Hend as [Hq|Hsz]; [by left|right]. lia.
Qed.

(** X7: every Page Record holds the clean text of the answer to a successful
    fetch of its url. *)
Theorem page_text_is_clean_response (start_url : string) (max_pages k : nat) :
  Forall (λ p, ∃ i sp,
            gets (run max_pages k (init start_url)) !! i = Some (url p)
            ∧ requests_get i (url p) = Ok sp
            ∧ text p = clean_text (get_text sp))
         (pages (run max_pages k (init start_url))).
Proof.
  apply (run_invariant requests_get urljoin max_pages
    (λ s, Forall (λ p, ∃ i sp, gets s !! i = Some (url p)
                                ∧ requests_get i (url p) = Ok sp
                                ∧ text p = clean_text (get_text sp)) (pages s))).
  - intros s s' Hs _.
    assert (Hold : Forall (λ p, ∃ i sp, (gets s ++ [hd EmptyString (to_visit s)]) !! i
                                          = Some (url p)
                                ∧ requests_get i (url p) = Ok sp
                                ∧ text p = clean_text (get_text sp)) (pages s)).
    { eapply Forall_impl; [exact Hs|]. intros p (i & sp & Hi & Hsp & Ht).
      exists i, sp. split; [by apply lookup_app_l_Some|done]. }
    destruct 1 as [u rest Hu Hskip|u rest e Hu Hv Hx Hr|u rest sp Hu Hv Hx Hr].
    + done.
    + rewrite Hu in Hold. exact Hold.
    + rewrite queue_links_pages, queue_links_gets.
      cbn [pages gets append_page mark_visited record_get print pop].
      rewrite Hu in Hold. apply Forall_app. split; [exact Hold|].
      apply Forall_singleton. exists (length (gets s)), sp.
      split; [|done]. apply lookup_snoc_Some. by right.
  - constructor.
Qed.

Lemma ok_gets_snoc n gs u :
  ok_gets requests_get n (gs ++ [u]) =
  ok_gets requests_get n gs ++
  match requests_get (n + length gs) u with
  | Ok _ => [u]
  | Raise _ => []
  end.
Proof.
  revert n. induction gs as [|v gs IH]; intros n; simpl.
  - rewrite Nat.add_0_r. by destruct (requests_get n u).
  - rewrite IH. replace (S n + length gs) with (n + S (length gs)) by lia.
    by destruct (requests_get n v).
Qed.

(** X8: the Page Records are in the order of their fetches: their urls are
    the URLs of the successful HTTP calls, in the order of the calls. *)
Theorem crawl_pages_in_fetch_order (start_url : string) (max_pages k : nat) :
  url <$> pages (run max_pages k (init start_url))
  = ok_gets requests_get 0 (gets (run max_pages k (init start_url))).
Proof.
  apply (run_invariant requests_get urljoin max_pages
    (λ s, url <$> pages s = ok_gets requests_get 0 (gets s))).
  - intros s s' Hs _.
    destruct 1 as [u rest Hu Hskip|u rest e Hu Hv Hx Hr|u rest sp Hu Hv Hx Hr].
    + done.
    + cbn [pages gets log_error record_get print pop].
      by rewrite ok_gets_snoc, Nat.add_0_l, Hr, app_nil_r.
    + rewrite queue_links_pages, queue_links_gets.
      cbn [pages gets append_page mark_visited record_get print pop].
      by rewrite ok_gets_snoc, Nat.add_0_l, Hr, fmap_app, Hs.
  - done.
Qed.

(** X9: with a budget of zero pages the crawl returns at once, whatever the
    fuel: no request, no Page Record, only the closing line of output. *)
Theorem crawl_zero_budget (fuel : nat) (start_url : string) :
  ∃ s, crawl_wiki fuel start_url 0 = Some s
       ∧ pages s = [] ∧ gets s = []
       ∧ stdout s = ["Crawled 0 pages from " +:+ start_url].
Proof.
  assert (Hc : loop_cond 0 (init start_url) = false) by done.
  unfold crawl_wiki. rewrite run_done by done. rewrite Hc. by eexists.
Qed.

(** X10: a start URL whose fetch fails ends the crawl after one pass: one
    request, no Page Record, and the three lines of output. *)
Theorem crawl_unreachable_root
    (fuel : nat) (start_url : string) (max_pages : nat) (e : string) :
  is_excluded_url start_url = false →
  requests_get 0 start_url = Raise e →
  0 < max_pages →
  1 ≤ fuel →
  ∃ s, crawl_wiki fuel start_url max_pages = Some s
       ∧ pages s = [] ∧ gets s = [start_url] ∧ visited s = ∅
       ∧ stdout s = [ "Fetching: " +:+ start_url;
                      "Error fetching " +:+ start_url +:+ ": " +:+ e;
                      "Crawled 0 pages from " +:+ start_url ].
Proof.
  intros Hx Hr Hmp Hfuel. destruct fuel as [|fuel]; [lia|].
  assert (Hc : loop_cond max_pages (init start_url) = true).
  { apply loop_cond_true. split; [done|].
    change (size (∅ : gset string) < max_pages). by rewrite size_empty. }
  assert (Hit : iteration (init start_url)
    = log_error start_url e
        (record_get start_url
           (print ("Fetching: " +:+ start_url) (pop [] (init start_url))))).
  { unfold iteration. simpl. rewrite Hx. simpl. by rewrite Hr. }
  unfold crawl_wiki. simpl. rewrite Hc, Hit, run_done by done.
  simpl. by eexists.
Qed.

End CrawlerMore.

Lemma crawl_unreachable_root_witness :
  ∃ s, crawl_wiki world_down wiki_urljoin 1 start_page 10 = Some s
       ∧ pages s = [] ∧ gets s = [start_page] ∧ visited s = ∅
       ∧ stdout s = [ "Fetching: " +:+ start_page;
                      "Error fetching " +:+ start_page +:+ ": " +:+ "Connection refused";
                      "Crawled 0 pages from " +:+ start_page ].
Proof.
  apply (crawl_unreachable_root world_down wiki_urljoin 1 start_page 10
           "Connection refused").
  - vm_compute. reflexivity.
  - reflexivity.
  - lia.
  - lia.
Defined.

(** ** The orchestrator, beyond the claims *)

(** From some amount of fuel on, a crawl returns, and always the same. *)
Lemma crawl_wiki_stable requests_get urljoin start_url max_pages :
  ∃ k s, ∀ fuel, k ≤ fuel →
    crawl_wiki requests_get urljoin fuel start_url max_pages = Some s.
Proof.
  destruct (loop_ends_from requests_get urljoin max_pages (init start_url))
    as (k & Hend & _).
  exists k. eexists. intros fuel Hfuel. unfold crawl_wiki.
  rewrite (run_stable requests_get urljoin max_pages k fuel) by done.
  rewrite Hend. reflexivity.
Qed.

(** What a crawl returns: at most [max_pages] records with distinct urls. *)
Lemma crawl_wiki_pages requests_get urljoin fuel start_url max_pages s :
  crawl_wiki requests_get urljoin fuel start_url max_pages = Some s →
  length (pages s) ≤ max_pages ∧ NoDup (url <$> pages s).
Proof.
  unfold crawl_wiki. destruct (loop_cond _ _); [done|]. intros [= <-]. simpl.
  destruct (count_inv_run requests_get urljoin max_pages start_url fuel) as [-> _].
  split; [apply visited_within_budget|].
  apply (pages_inv_run requests_get urljoin).
Qed.

Section OrchestratorMore.

Variable requests_get : nat → string → result soup.
Variable urljoin : string → string → result string.
Variable create_documents : list string → list string → list document.
Variable vectorstore_path : string.

Local Abbreviation crawl_roots := (crawl_roots requests_get urljoin).
Local Abbreviation build_vectorstore :=
  (build_vectorstore requests_get urljoin create_documents vectorstore_path).
Local Abbreviation index_pages := (index_pages create_documents vectorstore_path).

(** X13: whatever the web answers, [build_vectorstore] returns: from some
    amount of fuel on it yields one and the same sequence of effects. *)
Theorem build_vectorstore_returns :
  ∃ fuel0 effs, ∀ fuel, fuel0 ≤ fuel → build_vectorstore fuel = Some effs.
Proof.
  destruct (crawl_wiki_stable requests_get urljoin BASE_URL_WIKI 2000)
    as (k1 & w & Hw).
  destruct (crawl_wiki_stable (λ n, requests_get (length (gets w) + n)) urljoin
              BASE_URL_GITHUB 450) as (k2 & g & Hg).
  exists (Nat.max k1 k2). eexists. intros fuel Hfuel.
  unfold build_vectorstore, crawl_roots.
  rewrite Hw by lia. cbv zeta. rewrite Hg by lia. reflexivity.
Qed.

(** X14: the corpus is the pages of the wiki crawl followed by those of the
    code-hosting crawl: at most 2000 and 450 records, the urls distinct
    within each part. *)
Theorem corpus_bounds (fuel : nat) (ps : list page) :
  snd <$> crawl_roots fuel = Some ps →
  ∃ wiki github,
    ps = wiki ++ github
    ∧ length wiki ≤ 2000 ∧ length github ≤ 450
    ∧ NoDup (url <$> wiki) ∧ NoDup (url <$> github).
Proof.
  unfold crawl_roots.
  destruct (crawl_wiki requests_get urljoin fuel BASE_URL_WIKI 2000) as [w|] eqn:Hw;
    [|done].
  cbv zeta.
  destruct (crawl_wiki (λ n, requests_get (length (gets w) + n)) urljoin fuel
              BASE_URL_GITHUB 450) as [g|] eqn:Hg; [|done].
  simpl. intros [= <-]. exists (pages w), (pages g).
  apply crawl_wiki_pages in Hw as [? ?]. apply crawl_wiki_pages in Hg as [? ?].
  done.
Qed.


End OrchestratorMore.

Lemma corpus_bounds_witness :
  ∃ wiki github,
    [ {| url := BASE_URL_WIKI; text := "Hello" |};
      {| url := BASE_URL_GITHUB; text := "Hello" |} ] = wiki ++ github
    ∧ length wiki ≤ 2000 ∧ length github ≤ 450
    ∧ NoDup (url <$> wiki) ∧ NoDup (url <$> github).
Proof.
  apply (corpus_bounds world_leaf wiki_urljoin 1
           [ {| url := BASE_URL_WIKI; text := "Hello" |};
             {| url := BASE_URL_GITHUB; text := "Hello" |} ]).
  vm_compute. reflexivity.
Defined.


(** ** The content extractor, beyond the claims *)

Module CleanFacts.
Import PyStr.

Lemma lstrip_fixed s :
  (∀ c, first_char s = Some c → isspace c = false) → lstrip s = s.
Proof.
  destruct s as [|a s]; [done|]. simpl. intros H. by rewrite (H a).
Qed.

Lemma rstrip_fixed s :
  (∀ c, last_char s = Some c → isspace c = false) → rstrip s = s.
Proof.
  induction s as [|a s IH]; [done|]. intros H.
  destruct s as [|b s].
  - simpl. by rewrite (H a).
  - change (rstrip (String a (String b s)))
      with (match rstrip (String b s) with
            | EmptyString => if isspace a then EmptyString else String a EmptyString
            | r => String a r
            end).
    rewrite IH; [done|]. intros c Hc. by apply H.
Qed.

Lemma strip_idemp s : strip (strip s) = strip s.
Proof.
  unfold strip at 1.
  rewrite lstrip_fixed by apply PyStrFacts.strip_first.
  apply rstrip_fixed, PyStrFacts.strip_last.
Qed.

Lemma filter_all {A} (f : A → bool) l :
  Forall (λ x, f x = true) l → List.filter f l = l.
Proof. induction 1 as [|x l Hx _ IH]; [done|]. simpl. by rewrite Hx, IH. Qed.

Lemma map_fixed {A} (f : A → A) l :
  Forall (λ x, f x = x) l → map f l = l.
Proof. induction 1 as [|x l Hx _ IH]; [done|]. simpl. by rewrite Hx, IH. Qed.

Lemma lstrip_all_space s : all_space s = true → lstrip s = EmptyString.
Proof.
  induction s as [|a s IH]; [done|]. simpl.
  intros [Ha Hs]%andb_prop. rewrite Ha. auto.
Qed.

Lemma all_space_nonblank s : all_space s = true → nonblank s = false.
Proof. intros H. unfold nonblank, strip. by rewrite lstrip_all_space. Qed.

(** The lines of a text of whitespace are lines of whitespace. *)
Lemma splitlines_all_space_len n s :
  String.length s ≤ n → all_space s = true →
  Forall (λ l, all_space l = true) (splitlines s).
Proof.
  revert s. induction n as [|n IH]; intros [|c s] Hlen; simpl in *;
    try (constructor || lia).
  intros [Hc Hs]%andb_prop.
  destruct (is_linebreak c).
  - constructor; [done|].
    destruct s as [|d s']; [constructor|].
    destruct (Ascii.eqb c CR && Ascii.eqb d LF); apply IH; simpl in *; try lia;
      try done.
    by apply andb_prop in Hs as [_ ?].
  - assert (Hr : Forall (λ l, all_space l = true) (splitlines s))
      by (apply IH; [lia|done]).
    destruct (splitlines s) as [|l ls].
    + constructor; [|constructor]. simpl. by rewrite Hc.
    + inversion Hr; subst. constructor; [|done]. simpl. by rewrite Hc.
Qed.

End CleanFacts.

(** X17: cleaning a clean text changes nothing. *)
Theorem clean_text_idempotent (t : string) :
  clean_text (clean_text t) = clean_text t.
Proof.
  unfold clean_text at 1.
  assert (Hsplit : PyStr.splitlines (clean_text t)
    = map PyStr.strip (List.filter nonblank (PyStr.splitlines t))).
  { unfold clean_text. apply PyStrFacts.splitlines_join, kept_lines_wellformed. }
  rewrite Hsplit. unfold clean_text. f_equal.
  set (ls := List.filter nonblank (PyStr.splitlines t)).
  assert (Hls : Forall (λ l, nonblank l = true) ls).
  { apply Forall_forall. intros l Hl.
    by apply list_elem_of_In, filter_In in Hl as [_ ?]. }
  rewrite CleanFacts.filter_all.
  - apply CleanFacts.map_fixed. apply Forall_forall.
    intros l (l0 & <- & _)%list_elem_of_In%in_map_iff.
    apply CleanFacts.strip_idemp.
  - apply Forall_forall. intros l (l0 & <- & Hl0)%list_elem_of_In%in_map_iff.
    rewrite Forall_forall in Hls. apply list_elem_of_In, Hls in Hl0.
    unfold nonblank in *. rewrite CleanFacts.strip_idemp. exact Hl0.
Qed.

(** X18: a text made of whitespace only has the empty clean text. *)
Theorem clean_text_blank (t : string) :
  all_space t = true → clean_text t = EmptyString.
Proof.
  intros Ht. unfold clean_text.
  pose proof (CleanFacts.splitlines_all_space_len (String.length t) t (le_n _) Ht) as Hl.
  assert (Hf : List.filter nonblank (PyStr.splitlines t) = []).
  { induction Hl as [|l ls Hl _ IH]; [done|]. simpl.
    by rewrite CleanFacts.all_space_nonblank. }
  by rewrite Hf.
Qed.

Lemma clean_text_blank_witness :
  all_space (" " +:+ newline +:+ "  " +:+ newline) = true
  ∧ clean_text (" " +:+ newline +:+ "  " +:+ newline) = EmptyString.
Proof.
  split; [vm_compute; reflexivity|].
  apply (clean_text_blank (" " +:+ newline +:+ "  " +:+ newline)).
  vm_compute. reflexivity.
Defined.

(** ** [src/main.py]: the code fence *)

Module FenceFacts.
Import PyStr PyStrip.

(** Lower-casing keeps a fence character a fence character. *)
Lemma in_fence_lower c :
  in_chars FENCE_CHARS c = true → in_chars FENCE_CHARS (lower_char c) = true.
Proof. destruct c as [[] [] [] [] [] [] [] []]; vm_compute; done. Qed.

Lemma rstrip_chars_junk chars a j :
  rstrip_chars chars j = EmptyString →
  rstrip_chars chars (a +:+ j) = rstrip_chars chars a.
Proof.
  intros Hj. induction a as [|c a IH]; [done|].
  change (String c a +:+ j) with (String c (a +:+ j)). simpl. by rewrite IH.
Qed.

Lemma rstrip_chars_keep chars a b :
  rstrip_chars chars b ≠ EmptyString →
  rstrip_chars chars (a +:+ b) = a +:+ rstrip_chars chars b.
Proof.
  intros Hb. induction a as [|c a IH]; [done|].
  change (String c a +:+ b) with (String c (a +:+ b)).
  change (String c a +:+ rstrip_chars chars b)
    with (String c (a +:+ rstrip_chars chars b)).
  simpl. rewrite IH.
  destruct (a +:+ rstrip_chars chars b) eqn:Hab; [|done].
  destruct a; [|done]. by destruct Hb.
Qed.

Lemma lstrip_chars_keep chars s x :
  s ≠ EmptyString → lstrip_chars chars s = s →
  lstrip_chars chars (s +:+ x) = s +:+ x.
Proof.
  destruct s as [|c s]; [done|]. intros _.
  change (String c s +:+ x) with (String c (s +:+ x)). simpl.
  destruct (in_chars chars c) eqn:Hc; [|done].
  intros Hs. exfalso.
  assert (Hlen : ∀ t, String.length (lstrip_chars chars t) ≤ String.length t).
  { clear. induction t as [|d t IH]; simpl; [lia|].
    destruct (in_chars chars d); simpl; lia. }
  specialize (Hlen s). rewrite Hs in Hlen. simpl in Hlen. lia.
Qed.

(** A tag that spells [python] in some letter case has six characters,
    none of them a fence character. *)
Lemma python_tag tag x :
  lower tag = "python" →
  lstrip_chars FENCE_CHARS (tag +:+ x) = tag +:+ x
  ∧ rstrip_chars FENCE_CHARS tag = tag
  ∧ drop 6 (tag +:+ x) = x.
Proof.
  destruct tag as [|c1 [|c2 [|c3 [|c4 [|c5 [|c6 [|c7 tag]]]]]]]; try done.
  simpl. intros [= H1 H2 H3 H4 H5 H6].
  assert (Hout : ∀ c d, lower_char c = d → in_chars FENCE_CHARS d = false →
                        in_chars FENCE_CHARS c = false).
  { intros c d Hcd Hd. destruct (in_chars FENCE_CHARS c) eqn:Hc; [|done].
    apply in_fence_lower in Hc. congruence. }
  split; [|split; [|done]].
  - change (String c1 ?s +:+ x) with (String c1 (s +:+ x)). simpl.
    by rewrite (Hout c1 _ H1).
  - simpl. by rewrite (Hout c6 _ H6).
Qed.

End FenceFacts.

(** X19: code wrapped in a fence tagged [python] (in any letter case) comes back
    unchanged, provided it is not empty, starts with no whitespace and ends
    with no backtick, newline or space. *)
Theorem clean_generated_code_python_fence (tag code : string) :
  PyStr.lower tag = "python" →
  code ≠ EmptyString →
  PyStr.lstrip code = code →
  PyStrip.rstrip_chars FENCE_CHARS code = code →
  clean_generated_code ("```" +:+ tag +:+ newline +:+ code +:+ newline +:+ "```") = code.
Proof.
  intros Htag Hne Hl Hr.
  set (body := tag +:+ newline +:+ code).
  assert (Hstrip : PyStrip.strip_chars FENCE_CHARS
            ("```" +:+ tag +:+ newline +:+ code +:+ newline +:+ "```") = body).
  { unfold PyStrip.strip_chars.
    change (PyStrip.lstrip_chars FENCE_CHARS
              ("```" +:+ tag +:+ newline +:+ code +:+ newline +:+ "```"))
      with (PyStrip.lstrip_chars FENCE_CHARS
              (tag +:+ newline +:+ code +:+ newline +:+ "```")).
    destruct (FenceFacts.python_tag tag (newline +:+ code +:+ newline +:+ "```") Htag)
      as (-> & _ & _).
    assert (Hc : PyStrip.rstrip_chars FENCE_CHARS (code +:+ newline +:+ "```") = code).
    { rewrite FenceFacts.rstrip_chars_junk by reflexivity. exact Hr. }
    assert (Hn : PyStrip.rstrip_chars FENCE_CHARS (newline +:+ code +:+ newline +:+ "```")
                 = newline +:+ code).
    { rewrite (FenceFacts.rstrip_chars_keep FENCE_CHARS newline
                 (code +:+ newline +:+ "```")); by rewrite Hc. }
    rewrite (FenceFacts.rstrip_chars_keep FENCE_CHARS tag
               (newline +:+ code +:+ newline +:+ "```")); by rewrite Hn. }
  unfold clean_generated_code.
  assert (Hstart : PyStr.startswith
            ("```" +:+ tag +:+ newline +:+ code +:+ newline +:+ "```") "```" = true).
  { apply (FilterFacts.prefix_append_r "```" "```"). reflexivity. }
  rewrite Hstart. cbv zeta. rewrite Hstrip.
  assert (Hpy : PyStr.startswith (PyStr.lower body) "python" = true).
  { unfold body. rewrite FilterFacts.lower_append, Htag.
    apply (FilterFacts.prefix_append_r "python" "python"). reflexivity. }
  rewrite Hpy.
  destruct (FenceFacts.python_tag tag (newline +:+ code) Htag) as (_ & _ & Hdrop).
  change (String.length "python") with 6. unfold body. rewrite Hdrop.
  exact Hl.
Qed.

Lemma clean_generated_code_python_fence_witness :
  clean_generated_code
    ("```" +:+ "Python" +:+ newline +:+ "import FreeCAD" +:+ newline +:+ "```")
  = "import FreeCAD".
Proof.
  apply (clean_generated_code_python_fence "Python" "import FreeCAD").
  - reflexivity.
  - discriminate.
  - reflexivity.
  - reflexivity.
Defined.



Example clean_generated_code_unfenced :
  clean_generated_code "import FreeCAD" = "import FreeCAD".
Proof. reflexivity. Qed.

(** ** The link loop and the two roots *)

Section LinkFacts.

Variable requests_get : nat → string → result soup.
Variable urljoin : string → string → result string.

Local Abbreviation queue_links := (queue_links urljoin).
Local Abbreviation run := (run requests_get urljoin).
Local Abbreviation crawl_wiki := (crawl_wiki requests_get urljoin).
Local Abbreviation pass := (pass requests_get urljoin).

(** X11: the links of a page go to the back of the queue in document order:
    those resolved before the first reference that [urljoin] rejects, and
    among them the whitelisted ones that are neither visited nor excluded.
    A link already waiting in the queue is queued again. *)
Theorem queue_links_fifo (u : string) (hs : list string) (s : state) :
  to_visit (queue_links u hs s)
  = to_visit s ++ List.filter (queueable (visited s)) (resolved_prefix urljoin u hs).
Proof.
  revert s. induction hs as [|h hs IH]; intros s.
  - simpl. by rewrite app_nil_r.
  - rewrite (queue_links_cons urljoin). simpl.
    destruct (urljoin u h) as [full|e]; [|simpl; by rewrite app_nil_r].
    simpl. unfold queueable at 1.
    destruct (whitelisted full); simpl; [|apply IH].
    destruct (negb (bool_decide (full ∈ visited s)) && negb (is_excluded_url full));
      [|apply IH].
    rewrite IH. simpl. by rewrite <- app_assoc.
Qed.

Lemma pages_grow max_pages k s p :
  p ∈ pages s → p ∈ pages (run max_pages k s).
Proof.
  apply (run_invariant requests_get urljoin max_pages (λ s', p ∈ pages s')).
  intros s1 s2 Hp _.
  destruct 1 as [u rest Hu Hskip|u rest e Hu Hv Hx Hr|u rest sp Hu Hv Hx Hr].
  - done.
  - done.
  - rewrite (queue_links_pages urljoin). simpl. apply elem_of_app. by left.
Qed.

(** A start URL that passes the filter and whose fetch succeeds is in the
    returned list, whenever the budget is not zero. *)
Lemma crawl_root_page fuel start_url max_pages sp s :
  is_excluded_url start_url = false →
  requests_get 0 start_url = Ok sp →
  0 < max_pages →
  crawl_wiki fuel start_url max_pages = Some s →
  start_url ∈ url <$> pages s.
Proof.
  intros Hx Hr Hmp.
  assert (Hc : loop_cond max_pages (init start_url) = true).
  { apply loop_cond_true. split; [done|].
    change (size (∅ : gset string) < max_pages). by rewrite size_empty. }
  unfold crawl_wiki. destruct fuel as [|fuel].
  { simpl. rewrite Hc. intros [=]. }
  change (run max_pages (S fuel) (init start_url))
    with (if loop_cond max_pages (init start_url)
          then run max_pages fuel (iteration requests_get urljoin (init start_url))
          else init start_url).
  rewrite Hc.
  clear Hc. destruct (loop_cond max_pages _); [intros [=]|]. intros [= <-]. simpl.
  apply list_elem_of_fmap.
  exists {| url := start_url; text := clean_text (get_text sp) |}. split; [done|].
  apply pages_grow. unfold iteration. simpl.
  rewrite bool_decide_eq_false_2 by apply not_elem_of_empty.
  rewrite Hx. simpl. rewrite Hr.
  rewrite (queue_links_pages urljoin). simpl. apply list_elem_of_here.
Qed.

End LinkFacts.

(** X16: the two crawls do not share their visited sets: when the wiki crawl
    has recorded the start page of the code-hosting root and that page
    answers again, the corpus holds two Page Records with that url. *)
Theorem corpus_repeats_shared_page
    (requests_get : nat → string → result soup)
    (urljoin : string → string → result string)
    (fuel : nat) (w : state) (sp : soup) (ps : list page) :
  crawl_wiki requests_get urljoin fuel BASE_URL_WIKI 2000 = Some w →
  BASE_URL_GITHUB ∈ url <$> pages w →
  requests_get (length (gets w)) BASE_URL_GITHUB = Ok sp →
  snd <$> crawl_roots requests_get urljoin fuel = Some ps →
  ¬ NoDup (url <$> ps).
Proof.
  intros Hw Hin Hr. unfold crawl_roots. rewrite Hw. cbv zeta.
  destruct (crawl_wiki (λ n, requests_get (length (gets w) + n)) urljoin fuel
              BASE_URL_GITHUB 450) as [g|] eqn:Hg; [|done].
  simpl. intros [= <-]. rewrite fmap_app. intros (_ & Hdisj & _)%NoDup_app.
  apply (Hdisj BASE_URL_GITHUB Hin).
  eapply (crawl_root_page _ urljoin fuel BASE_URL_GITHUB 450 sp g); [| |lia|exact Hg].
  - vm_compute. reflexivity.
  - cbv beta. by rewrite Nat.add_0_r.
Qed.

Lemma corpus_repeats_shared_page_witness :
  ¬ NoDup (url <$> [ {| url := BASE_URL_WIKI; text := "Wiki" |};
                     {| url := BASE_URL_GITHUB; text := "Repo" |};
                     {| url := BASE_URL_GITHUB; text := "Repo" |} ]).
Proof.
  eapply (corpus_repeats_shared_page world_cross abs_urljoin 2 _
            {| get_text := "Repo"; hrefs := [] |}).
  - vm_compute. reflexivity.
  - vm_compute. apply list_elem_of_further, list_elem_of_here.
  - vm_compute. reflexivity.
  - vm_compute. reflexivity.
Defined.

Example queue_links_fifo_sample :
  to_visit (queue_links strict_urljoin start_page ["/A"; "/B.png"; "/A"; "//["; "/C"]
              (init start_page))
  = [start_page; "https://wiki.freecad.org/A"; "https://wiki.freecad.org/A"].
Proof. vm_compute. reflexivity. Qed.

(** X4: a URL under the wiki prefix, the prefix taken without regard to
    letter case, that contains a language marker is excluded. *)
Theorem wiki_language_url_excluded (u : string) :
  PyStr.startswith (PyStr.lower u) "https://wiki.freecad.org" = true →
  has_lang_marker u = true →
  is_excluded_url u = true.
Proof.
  intros (r & Hr)%FilterFacts.prefix_split Hm%FilterFacts.has_lang_marker_lower.
  unfold is_excluded_url. unfold has_lang_marker in Hm. rewrite Hm, Hr.
  by rewrite (FilterFacts.contains_append_r "wiki.freecad.org" "https://wiki.freecad.org").
Qed.

Lemma wiki_language_url_excluded_witness :
  is_excluded_url "HTTPS://Wiki.FreeCAD.org/Manual/fr" = true.
Proof.
  apply (wiki_language_url_excluded "HTTPS://Wiki.FreeCAD.org/Manual/fr");
    vm_compute; reflexivity.
Defined.

(** X12: a pass whose fetch succeeds records the page, marks its URL
    visited and queues the links behind the rest of the queue, whatever
    happens in the link loop: a reference that [urljoin] rejects only cuts
    the list of queued links short. *)
Theorem successful_pass_records_page
    (requests_get : nat → string → result soup)
    (urljoin : string → string → result string)
    (s : state) (u : string) (rest : list string) (sp : soup) :
  to_visit s = u :: rest →
  u ∉ visited s →
  is_excluded_url u = false →
  requests_get (length (gets s)) u = Ok sp →
  pages (iteration requests_get urljoin s)
    = pages s ++ [{| url := u; text := clean_text (get_text sp) |}]
  ∧ visited (iteration requests_get urljoin s) = {[u]} ∪ visited s
  ∧ gets (iteration requests_get urljoin s) = gets s ++ [u]
  ∧ to_visit (iteration requests_get urljoin s)
    = rest ++ List.filter (queueable ({[u]} ∪ visited s))
                (resolved_prefix urljoin u (hrefs sp)).
Proof.
  intros Hq Hv Hx Hg.
  assert (Hit : iteration requests_get urljoin s
    = queue_links urljoin u (hrefs sp)
        (append_page {| url := u; text := clean_text (get_text sp) |}
           (mark_visited u (record_get u (print ("Fetching: " +:+ u) (pop rest s)))))).
  { unfold iteration. rewrite Hq. simpl.
    rewrite bool_decide_eq_false_2, Hx by done. simpl. by rewrite Hg. }
  rewrite Hit, queue_links_pages, queue_links_visited, queue_links_gets,
    queue_links_fifo.
  done.
Qed.

Lemma successful_pass_records_page_witness :
  pages (iteration world_dup_fail wiki_urljoin (init start_page))
    = [] ++ [{| url := start_page; text := clean_text "Start" |}]
  ∧ visited (iteration world_dup_fail wiki_urljoin (init start_page))
    = {[start_page]} ∪ ∅
  ∧ gets (iteration world_dup_fail wiki_urljoin (init start_page)) = [] ++ [start_page]
  ∧ to_visit (iteration world_dup_fail wiki_urljoin (init start_page))
    = [] ++ List.filter (queueable ({[start_page]} ∪ ∅))
              (resolved_prefix wiki_urljoin start_page ["/B"; "/B"]).
Proof.
  apply (successful_pass_records_page world_dup_fail wiki_urljoin (init start_page)
           start_page [] {| get_text := "Start"; hrefs := ["/B"; "/B"] |}).
  - reflexivity.
  - apply not_elem_of_empty.
  - vm_compute. reflexivity.
  - reflexivity.
Defined.
